(** * A shallow embedding of [Project 2/table.py]

    The module formats column headers and rows of strings as an ASCII
    table.  This development embeds the class [Table] -- construction,
    the cached [column_widths] property with its REDISTRIBUTE loop, and
    the row renderer [lines_for_row] -- and states the properties of the
    table specification over that embedding.

    Python values are modelled as follows: [int] is [Z], [str] is
    [string], a list is a [list] read with stdpp's lookup [!!] and
    updated with [<[i:=x]>]; an exception is the [Raise] branch of
    [result]; the instance attributes live in the record [Table], which
    the stateful methods take and return.  The [while] loop of
    [_redistribute_widths] runs on a budget of turns, [None] standing
    for a budget that is used up; the budget the property gives it is
    shown to suffice on every constructed table. *)

From Stdlib Require Import ZArith Lia Ascii String Sorted.
From stdpp Require Import base list strings.

Local Open Scope Z_scope.

(** ** Exceptions and results *)

Inductive exn : Set :=
  | AssertionError
  | IndexError
  | TypeError
  | ValueError.

Inductive result (A : Type) : Type :=
  | Ok (a : A)
  | Raise (e : exn).

Arguments Ok {A} a.
Arguments Raise {A} e.

#[global] Instance result_ret : MRet result := fun _ a => Ok a.
#[global] Instance result_bind : MBind result := fun _ _ f m =>
  match m with
  | Ok a => f a
  | Raise e => Raise e
  end.

Definition is_Ok {A} (r : result A) : Prop := exists a, r = Ok a.

(** [for x in l: ...] over a body that may raise. *)
Fixpoint mapM {A B} (f : A -> result B) (l : list A) : result (list B) :=
  match l with
  | [] => Ok []
  | x :: l' => y ← f x; ys ← mapM f l'; Ok (y :: ys)
  end.

(** ** Python built-ins on [str], [int] and lists *)

Module Py.

(** [len(s)] *)
Definition len (s : string) : Z := Z.of_nat (String.length s).

(** [s * n]: no repetition at all for [n <= 0]. *)
Fixpoint repeat_nat (s : string) (n : nat) : string :=
  match n with
  | O => ""
  | S n' => s +:+ repeat_nat s n'
  end.

Definition str_mul (s : string) (n : Z) : string := repeat_nat s (Z.to_nat n).

(** The first [n] characters of [s]. *)
Fixpoint str_take (n : nat) (s : string) : string :=
  match n, s with
  | S n', String c s' => String c (str_take n' s')
  | _, _ => ""
  end.

(** [s[:k]]: a negative bound counts from the end, and a bound out of
    range is clipped. *)
Definition slice_to (s : string) (k : Z) : string :=
  if k <? 0 then str_take (Z.to_nat (len s + k)) s
  else str_take (Z.to_nat k) s.

(** [f"{v:<{w}}"]: left-justify in a field of [w] characters, padding
    on the right with spaces and never cutting.  The format
    specification is the text ["<" + str(w)]; for a negative [w] it
    carries a sign, which the string formatter refuses. *)
Definition format_ljust (v : string) (w : Z) : result string :=
  if w <? 0 then Raise ValueError
  else Ok (v +:+ str_mul " " (w - len v)).

(** [sep.join(l)] *)
Fixpoint join (sep : string) (l : list string) : string :=
  match l with
  | [] => ""
  | [x] => x
  | x :: l' => x +:+ sep +:+ join sep l'
  end.

(** [s.split(sep)] for a non-empty [sep]: the pieces between the
    leftmost non-overlapping occurrences of [sep].  [skip] counts the
    characters of an occurrence still to be passed over, [acc] is the
    piece being read. *)
Fixpoint split_go (sep : string) (skip : nat) (acc : string) (s : string)
  : list string :=
  match s with
  | EmptyString => [acc]
  | String c s' =>
      match skip with
      | S k => split_go sep k acc s'
      | O =>
          if String.prefix sep s
          then acc :: split_go sep (String.length sep - 1) "" s'
          else split_go sep 0 (acc +:+ String c "") s'
      end
  end.

Definition split (s sep : string) : result (list string) :=
  if decide (sep = "") then Raise ValueError
  else Ok (split_go sep 0 "" s).

(** [max(l)] raises on an empty sequence. *)
Definition max (l : list Z) : result Z :=
  match l with
  | [] => Raise ValueError
  | x :: l' => Ok (foldl Z.max x l')
  end.

(** [sum(l)] *)
Definition sum (l : list Z) : Z := foldr Z.add 0 l.

(** [l[-1]] *)
Definition getitem_last {A} (l : list A) : result A :=
  match last l with
  | Some x => Ok x
  | None => Raise IndexError
  end.

(** [l[i]] for an index that is not negative. *)
Definition getitem {A} (l : list A) (i : nat) : result A :=
  match l !! i with
  | Some x => Ok x
  | None => Raise IndexError
  end.

(** [enumerate(l)] *)
Definition enumerate {A} (l : list A) : list (nat * A) :=
  imap (fun i x => (i, x)) l.

(** [sorted(l, key=lambda t: t[1], reverse=True)]: the sort is stable,
    also with [reverse=True], so among equal keys the original order
    is kept.  [insert_desc t l] puts [t] in front of the first entry
    whose key is not greater than its own. *)
Fixpoint insert_desc (t : nat * Z) (l : list (nat * Z)) : list (nat * Z) :=
  match l with
  | [] => [t]
  | u :: l' =>
      if u.2 <=? t.2 then t :: u :: l' else u :: insert_desc t l'
  end.

Fixpoint sorted_desc (l : list (nat * Z)) : list (nat * Z) :=
  match l with
  | [] => []
  | t :: l' => insert_desc t (sorted_desc l')
  end.

(** [zip] of [first] and the unpacked [rest]: tuples of the elements at
    the same position, as many as the shortest argument has. *)
Fixpoint heads {A} (ls : list (list A)) : option (list A) :=
  match ls with
  | [] => Some []
  | [] :: _ => None
  | (x :: _) :: ls' =>
      match heads ls' with
      | Some hs => Some (x :: hs)
      | None => None
      end
  end.

Fixpoint zip_star {A} (first : list A) (rest : list (list A))
  : list (list A) :=
  match first with
  | [] => []
  | x :: first' =>
      match heads rest with
      | Some hs => (x :: hs) :: zip_star first' (map (drop 1) rest)
      | None => []
      end
  end.

(** [itertools.zip_longest] of the unpacked [cols] with
    [fillvalue=fill]: as many tuples as
    the longest argument has, the shorter ones filled up. *)
Definition longest {A} (cols : list (list A)) : nat :=
  foldr Nat.max 0%nat (map length cols).

Definition zip_longest {A} (fill : A) (cols : list (list A))
  : list (list A) :=
  map (fun k => map (fun col => nth k col fill) cols)
      (seq 0 (longest cols)).

End Py.

(** ** The class [FormatSpec] *)

Inductive FormatSpec : Set :=
  | PREFORMATTED
  | WRAPPED
  | TRUNCATED.

#[global] Instance FormatSpec_eq_dec : EqDecision FormatSpec.
Proof. solve_decision. Defined.

(** [spec.value] *)
Definition FormatSpec_value (spec : FormatSpec) : ascii :=
  match spec with
  | PREFORMATTED => "p"
  | WRAPPED => "w"
  | TRUNCATED => "t"
  end%char.

(** [FormatSpec(fmt)]: the member with that value. *)
Definition FormatSpec_of (fmt : ascii) : result FormatSpec :=
  if decide (fmt = "p"%char) then Ok PREFORMATTED
  else if decide (fmt = "w"%char) then Ok WRAPPED
  else if decide (fmt = "t"%char) then Ok TRUNCATED
  else Raise ValueError.

(** ** The class [Table] *)

(** The instance attributes. *)
Record Table : Type := mkTable {
  _column_names : list string;
  _data : list (list string);
  _head_underline : string;
  _col_sep : string;
  _format_spec : list FormatSpec;
  _max_width : Z;
  _preformat_sep : string;
  _dots : string;
  _column_widths : list Z
}.

(** The class constants. *)
Definition _HEAD_UNDERLINE : string := " ".
Definition _COLUMN_SEPARATOR : string := " ".
Definition _MAX_WIDTH : Z := 100.
Definition _PREFORMAT_SEPARATOR : string := ", ".
Definition _DOTS : string := "...".
Definition _DEFAULT_FORMAT : FormatSpec := WRAPPED.

(** The keyword parameters of the initializer; [None] is Python's
    [None], the default of each. *)
Record kwargs : Type := mkKwargs {
  head_underline : option string;
  col_sep : option string;
  format_str : option string;
  max_width : option Z;
  preformat_sep : option string;
  dots : option string
}.

Definition no_kwargs : kwargs := mkKwargs None None None None None None.

(** Truth value of an optional [str]: [None] and [""] are false. *)
Definition truthy_str (o : option string) : bool :=
  match o with
  | Some s => negb (String.eqb s "")
  | None => false
  end.

(** Truth value of an optional [int]: [None] and [0] are false. *)
Definition truthy_int (o : option Z) : bool :=
  match o with
  | Some z => negb (z =? 0)
  | None => false
  end.

(** [o or default] *)
Definition str_or (o : option string) (default : string) : string :=
  match o with
  | Some s => if String.eqb s "" then default else s
  | None => default
  end.

Definition int_or (o : option Z) (default : Z) : Z :=
  match o with
  | Some z => if z =? 0 then default else z
  | None => default
  end.

(** [assert cond, message] *)
Definition assert_ (cond : bool) : result unit :=
  if cond then Ok tt else Raise AssertionError.

(** [Table.__init__].  [terminal_columns] stands for
    [shutil.get_terminal_size((Table._MAX_WIDTH, 24)).columns], which
    the environment decides. *)
Definition __init__ (terminal_columns : Z)
    (column_names : list string) (data : list (list string)) (kw : kwargs)
  : result Table :=
  let fs := default "" (format_str kw) in
  let hu := default "" (head_underline kw) in
  let mw := default 0 (max_width kw) in
  _ ← assert_ (forallb (fun r => Nat.eqb (length r) (length column_names)) data);
  _ ← assert_ (negb (truthy_str (format_str kw))
               || Nat.eqb (String.length fs) (length column_names));
  _ ← assert_ (negb (truthy_str (format_str kw))
               || forallb (fun chr =>
                    bool_decide (chr ∈ map FormatSpec_value
                                   [PREFORMATTED; WRAPPED; TRUNCATED]))
                    (list_ascii_of_string fs));
  _ ← assert_ (negb (truthy_str (head_underline kw))
               || Nat.eqb (String.length hu) 1);
  _ ← assert_ (negb (truthy_int (max_width kw)) || (0 <? mw));
  format_spec ←
    (if truthy_str (format_str kw)
     then mapM FormatSpec_of (list_ascii_of_string fs)
     else Ok (replicate (length column_names) _DEFAULT_FORMAT));
  Ok {| _column_names := column_names;
        _data := data;
        _head_underline := str_or (head_underline kw) _HEAD_UNDERLINE;
        _col_sep := str_or (col_sep kw) _COLUMN_SEPARATOR;
        _format_spec := format_spec;
        _max_width := int_or (max_width kw) (Z.min _MAX_WIDTH terminal_columns);
        _preformat_sep := str_or (preformat_sep kw) _PREFORMAT_SEPARATOR;
        _dots := str_or (dots kw) _DOTS;
        _column_widths := [] |}.

(** [self._column_widths = ws], also what the setter
    [set_column_widths] does. *)
Definition set_column_widths (self : Table) (col_widths : list Z) : Table :=
  {| _column_names := _column_names self;
     _data := _data self;
     _head_underline := _head_underline self;
     _col_sep := _col_sep self;
     _format_spec := _format_spec self;
     _max_width := _max_width self;
     _preformat_sep := _preformat_sep self;
     _dots := _dots self;
     _column_widths := col_widths |}.

(** *** Preliminary widths *)

(** The body of the loop over the columns in [column_widths]: the width
    of one column, header included, before any redistribution. *)
Definition preliminary_width (self : Table) (fmt : FormatSpec)
    (column : list string) : result Z :=
  if decide (fmt = PREFORMATTED) then
    col_lines ← mapM (fun row => Py.split row (_preformat_sep self)) column;
    Py.max (map Py.len (concat col_lines))
  else
    Py.max (map Py.len column).

(** The loop [for fmt, column in zip(self._format_spec, columns)], which
    appends to [self._column_widths] as it goes: what it has appended
    stays when a later column raises. *)
Fixpoint append_widths (self : Table) (cols : list (FormatSpec * list string))
  : result unit * Table :=
  match cols with
  | [] => (Ok tt, self)
  | (fmt, column) :: cols' =>
      match preliminary_width self fmt column with
      | Ok width =>
          append_widths
            (set_column_widths self (_column_widths self ++ [width])) cols'
      | Raise e => (Raise e, self)
      end
  end.

(** *** REDISTRIBUTE *)

(** [self._dots + 3]: [str.__add__] refuses an [int]. *)
Definition str_add_int (s : string) (n : Z) : result string := Raise TypeError.

Definition column_is_wide_enough (self : Table)
    (width : Z) (header : string) (format_spec : FormatSpec)
    (nominal_width : Z) : result bool :=
  match format_spec with
  | WRAPPED => Ok (Py.len header <=? width)
  | PREFORMATTED => Ok (nominal_width <=? width)
  | TRUNCATED =>
      d ← str_add_int (_dots self) 3;
      Ok (Z.max (Py.len header) (Py.len d) <=? width)
  end.

(** The sweep [for i, width in sorted_idxes_and_widths] of
    [next_reducable_column_idx], with [idx = -1] when it runs to the
    end. *)
Fixpoint sweep (self : Table) (l : list (nat * Z)) : result Z :=
  match l with
  | [] => Ok (-1)
  | (i, width) :: l' =>
      header ← Py.getitem (_column_names self) i;
      fmt ← Py.getitem (_format_spec self) i;
      nominal ← Py.getitem (_column_widths self) i;
      b ← column_is_wide_enough self width header fmt nominal;
      if (b : bool) then Ok (Z.of_nat i) else sweep self l'
  end.

Definition next_reducable_column_idx (self : Table) (widths : list Z)
  : result Z :=
  let sorted_idxes_and_widths := Py.sorted_desc (Py.enumerate widths) in
  sweep self sorted_idxes_and_widths.

(** The condition of the [while] loop: the walrus assignment to
    [to_reduce], then, only if it is not negative, the check of the last
    column.  The result is [to_reduce] and whether the body runs. *)
Definition loop_test (self : Table) (redistributed_widths : list Z)
  : result (Z * bool) :=
  to_reduce ← next_reducable_column_idx self redistributed_widths;
  if 0 <=? to_reduce then
    width ← Py.getitem_last redistributed_widths;
    header ← Py.getitem_last (_column_names self);
    fmt ← Py.getitem_last (_format_spec self);
    nominal ← Py.getitem_last (_column_widths self);
    b ← column_is_wide_enough self width header fmt nominal;
    Ok (to_reduce, negb b)
  else Ok (to_reduce, false).

(** The body: [redistributed_widths[to_reduce] -= 1] and
    [redistributed_widths[-1] += 1]. *)
Definition loop_body (redistributed_widths : list Z) (to_reduce : Z)
  : result (list Z) :=
  let i := Z.to_nat to_reduce in
  w ← Py.getitem redistributed_widths i;
  let widths1 := <[i := w - 1]> redistributed_widths in
  l ← Py.getitem_last widths1;
  Ok (<[pred (length widths1) := l + 1]> widths1).

(** The [while] loop, run for at most [fuel] evaluations of its
    condition; [None] when that is not enough. *)
Fixpoint redistribute_loop (fuel : nat) (self : Table)
    (redistributed_widths : list Z) : option (result (list Z)) :=
  match fuel with
  | O => None
  | S fuel' =>
      match loop_test self redistributed_widths with
      | Raise e => Some (Raise e)
      | Ok (_, false) => Some (Ok redistributed_widths)
      | Ok (to_reduce, true) =>
          match loop_body redistributed_widths to_reduce with
          | Raise e => Some (Raise e)
          | Ok widths' => redistribute_loop fuel' self widths'
          end
      end
  end.

(** The loop variant: how far each column but the last is above the
    point where the sweep stops choosing it. *)
Definition slack (self : Table) (n : nat) (t : nat * Z) : Z :=
  if decide (S t.1 = n) then 0
  else
    match _format_spec self !! t.1 with
    | Some WRAPPED =>
        match _column_names self !! t.1 with
        | Some header => Z.max 0 (t.2 - Py.len header + 1)
        | None => 0
        end
    | Some PREFORMATTED =>
        match _column_widths self !! t.1 with
        | Some nominal => Z.max 0 (t.2 - nominal + 1)
        | None => 0
        end
    | _ => 0
    end.

Definition variant (self : Table) (widths : list Z) : Z :=
  Py.sum (map (slack self (length widths)) (Py.enumerate widths)).

Definition loop_fuel (self : Table) (widths : list Z) : nat :=
  S (Z.to_nat (variant self widths)).

(** [_total_width], as [_redistribute_widths] calls it: at that point
    [self._column_widths] is not empty, so the property [column_widths]
    hands back the attribute without recomputing. *)
Definition _total_width (self : Table) : Z :=
  Py.sum (_column_widths self)
  + Py.len (_col_sep self) * (Z.of_nat (length (_column_widths self)) - 1).

(** [_redistribute_widths].  The first argument of [min] is evaluated
    first, so an empty list raises before [_total_width] is called. *)
Definition _redistribute_widths (self : Table) : option (result (list Z)) :=
  let redistributed_widths := _column_widths self in
  match Py.getitem_last redistributed_widths with
  | Raise e => Some (Raise e)
  | Ok last_width =>
      let shrunk :=
        Z.min last_width
              (_max_width self
               - (_total_width self - last_width)
               - (Py.len (_col_sep self) - 1)) in
      let redistributed_widths :=
        <[pred (length redistributed_widths) := shrunk]> redistributed_widths in
      redistribute_loop (loop_fuel self redistributed_widths)
                        self redistributed_widths
  end.

(** The property [column_widths]; the keyword [recompute] cannot be
    passed through a property access, so it is [False].  The result is
    paired with the instance as the call leaves it. *)
Definition column_widths (self : Table)
  : option (result (list Z) * Table) :=
  match _column_widths self with
  | _ :: _ => Some (Ok (_column_widths self), self)
  | [] =>
      let columns := Py.zip_star (_column_names self) (_data self) in
      match append_widths self (zip (_format_spec self) columns) with
      | (Raise e, self') => Some (Raise e, self')
      | (Ok _, self') =>
          match _redistribute_widths self' with
          | None => None
          | Some (Raise e) => Some (Raise e, self')
          | Some (Ok widths) => Some (Ok widths, set_column_widths self' widths)
          end
      end
  end.

(** *** Rendering *)

Section Render.

(** [textwrap.wrap(text, width)] of the Python library, which is not
    part of the module: the renderer is stated for any behaviour of
    it. *)
Variable textwrap_wrap : string -> Z -> result (list string).

(** The body of the loop over [zip(values, widths, format_spec)] in
    [lines_for_row]: the lines of one value. *)
Definition format_value (self : Table) (val : string) (width : Z)
    (fmt : FormatSpec) : result (list string) :=
  match fmt with
  | PREFORMATTED => Py.split val (_preformat_sep self)
  | WRAPPED => textwrap_wrap val width
  | TRUNCATED =>
      if width <? Py.len val
      then Ok [Py.slice_to val (width - Py.len (_dots self)) +:+ _dots self]
      else Ok [val]
  end.

(** The generator [f"{v:<{w}}" for (v, w) in zip(line, widths)]: the
    segments of one line, one per column. *)
Definition justified (widths : list Z) (line : list string)
  : result (list string) :=
  mapM (fun vw => Py.format_ljust vw.1 vw.2) (zip line widths).

(** The segments of the underline. *)
Definition underlines (self : Table) (widths : list Z) : list string :=
  map (fun w => Py.str_mul (_head_underline self) w) widths.

Definition is_header (idx : Z) : bool := idx <? 0.

(** The rows of [lines_for_row] before [join] glues the segments of a
    line with the column separator. *)
Definition segments_of (self : Table) (row_idx : Z) (values : list string)
    (widths : list Z) : result (list (list string)) :=
  formatted_columns ←
    mapM (fun t => format_value self t.1 t.2.1 t.2.2)
         (zip values (zip widths (_format_spec self)));
  row ← mapM (justified widths) (Py.zip_longest "" formatted_columns);
  if is_header row_idx then Ok (row ++ [underlines self widths])
  else Ok row.

(** [lines_for_row], from the first read of [self.column_widths] on;
    the later reads of the property in the method find the widths
    cached (see [column_widths_cached]). *)
Definition lines_of (self : Table) (row_idx : Z) (values : list string)
    (widths : list Z) : result (list string) :=
  formatted_columns ←
    mapM (fun t => format_value self t.1 t.2.1 t.2.2)
         (zip values (zip widths (_format_spec self)));
  row ← mapM (fun line => segs ← justified widths line;
                          Ok (Py.join (_col_sep self) segs))
             (Py.zip_longest "" formatted_columns);
  if is_header row_idx
  then Ok (row ++ [Py.join (_col_sep self) (underlines self widths)])
  else Ok row.

(** The values to print: the headers for a negative index, else the
    data row. *)
Definition values_for_row (self : Table) (row_idx : Z)
  : result (list string) :=
  if is_header row_idx then Ok (_column_names self)
  else Py.getitem (_data self) (Z.to_nat row_idx).

Definition lines_for_row (self : Table) (row_idx : Z)
  : option (result (list string) * Table) :=
  match values_for_row self row_idx with
  | Raise e => Some (Raise e, self)
  | Ok values =>
      match column_widths self with
      | None => None
      | Some (Raise e, self') => Some (Raise e, self')
      | Some (Ok widths, self') =>
          Some (lines_of self' row_idx values widths, self')
      end
  end.

(** The same call, keeping the segments of each line apart. *)
Definition segments_for_row (self : Table) (row_idx : Z)
  : option (result (list (list string)) * Table) :=
  match values_for_row self row_idx with
  | Raise e => Some (Raise e, self)
  | Ok values =>
      match column_widths self with
      | None => None
      | Some (Raise e, self') => Some (Raise e, self')
      | Some (Ok widths, self') =>
          Some (segments_of self' row_idx values widths, self')
      end
  end.

Definition headers (self : Table) : option (result (list string) * Table) :=
  lines_for_row self (-1).

Definition __getitem__ (self : Table) (row_idx : Z)
  : option (result (list string) * Table) :=
  lines_for_row self row_idx.

Definition __len__ (self : Table) : Z := Z.of_nat (length (_data self)).

End Render.

(** A wrapper to run tables that have no [WRAPPED] column, where
    [textwrap.wrap] is never called. *)
Definition wrap_unused (text : string) (width : Z) : result (list string) :=
  Ok [text].

(** *** Iteration and the whole table *)

(** The instance together with the attribute [_iter_cnt], which
    [__iter__] gives it. *)
Record Cursor : Type := mkCursor {
  instance : Table;
  _iter_cnt : Z
}.

(** What a call of [__next__] does: it returns a row, raises
    [StopIteration], or lets an exception of the renderer through. *)
Inductive step (A : Type) : Type :=
  | Yield (a : A)
  | StopIteration
  | Throw (e : exn).

Arguments Yield {A} a.
Arguments StopIteration {A}.
Arguments Throw {A} e.

(** ["\n"] *)
Definition newline : string := String (ascii_of_nat 10) EmptyString.

Section Whole.

Variable textwrap_wrap : string -> Z -> result (list string).

(** [__iter__] returns the instance itself, its cursor at the first
    row. *)
Definition __iter__ (self : Table) : Cursor := mkCursor self 0.

Definition __next__ (c : Cursor) : option (step (list string) * Cursor) :=
  if _iter_cnt c =? __len__ (instance c) then Some (StopIteration, c)
  else
    match __getitem__ textwrap_wrap (instance c) (_iter_cnt c) with
    | None => None
    | Some (Raise e, self') => Some (Throw e, mkCursor self' (_iter_cnt c))
    | Some (Ok next_row, self') =>
        Some (Yield next_row, mkCursor self' (_iter_cnt c + 1))
    end.

(** The loop [for row in self: lines.extend(row)] of [__str__], from
    the cursor [c] on, run for at most [fuel] calls of [__next__]. *)
Fixpoint extend_with_rows (fuel : nat) (c : Cursor) (lines : list string)
  : option (result (list string) * Cursor) :=
  match fuel with
  | O => None
  | S fuel' =>
      match __next__ c with
      | None => None
      | Some (StopIteration, c') => Some (Ok lines, c')
      | Some (Throw e, c') => Some (Raise e, c')
      | Some (Yield row, c') => extend_with_rows fuel' c' (lines ++ row)
      end
  end.

(** [__str__]; the result is paired with the instance as the call
    leaves it, the cursor apart.  One call of [__next__] per row and one
    more for [StopIteration] make the budget of the loop. *)
Definition __str__ (self : Table) : option (result string * Table) :=
  match headers textwrap_wrap self with
  | None => None
  | Some (Raise e, self') => Some (Raise e, self')
  | Some (Ok lines, self') =>
      match extend_with_rows (S (length (_data self'))) (__iter__ self') lines with
      | None => None
      | Some (Raise e, c) => Some (Raise e, instance c)
      | Some (Ok lines', c) => Some (Ok (Py.join newline lines'), instance c)
      end
  end.

End Whole.

(** ** The caller [Project 1/lux.py] *)

(** [l[i:j]] for bounds that are not negative. *)
Definition py_slice {A} (l : list A) (i j : nat) : list A :=
  take (j - i) (drop i l).

(** The objects that [main] hands to [output_objects], out of the
    result [objects[0]] of the query. *)
Definition main_shown {A} (found : list A) : list A :=
  if (1000 <? length found)%nat then py_slice found 1 1000 else found.

(** ** Notions used to state the properties *)

(** What the assertions and defaults of the initializer leave true of
    the attributes. *)
Record constructed (self : Table) : Prop := {
  rows_length :
    Forall (fun r => length r = length (_column_names self)) (_data self);
  format_length : length (_format_spec self) = length (_column_names self);
  col_sep_nonempty : _col_sep self <> "";
  preformat_sep_nonempty : _preformat_sep self <> "";
  dots_nonempty : _dots self <> "";
  underline_char : String.length (_head_underline self) = 1%nat
}.

(** The values of column [j], one per data row. *)
Definition column_values (data : list (list string)) (j : nat) : list string :=
  omap (fun r : list string => r !! j) data.

(** The nominal widths: what the loop over the columns in
    [column_widths] leaves in [self._column_widths], started from the
    empty list. *)
Definition nominal_widths (self : Table) : list Z :=
  _column_widths
    (append_widths (set_column_widths self [])
       (zip (_format_spec self)
            (Py.zip_star (_column_names self) (_data self)))).2.

(** The total width of a list of column widths, as [_total_width]
    computes it. *)
Definition total_width (self : Table) (widths : list Z) : Z :=
  Py.sum widths + Py.len (_col_sep self) * (Z.of_nat (length widths) - 1).

(** [m] is the maximum of the list [l]. *)
Definition is_max (m : Z) (l : list Z) : Prop :=
  m ∈ l /\ Forall (fun y => y <= m) l.

(** The check of [column_is_wide_enough] on column [i] at width [w],
    with the look-ups of its arguments, as the sweep calls it. *)
Definition wide_at (self : Table) (i : nat) (w : Z) : result bool :=
  header ← Py.getitem (_column_names self) i;
  fmt ← Py.getitem (_format_spec self) i;
  nominal ← Py.getitem (_column_widths self) i;
  column_is_wide_enough self w header fmt nominal.

(** The lists the loop reads have one entry per column of [widths]. *)
Definition synced (self : Table) (widths : list Z) : Prop :=
  length (_column_names self) = length widths
  /\ length (_format_spec self) = length widths
  /\ length (_column_widths self) = length widths.

(** The nominal width of a column as the specification words it: the
    header counts with its full length, and only the values of a
    preformatted column are split. *)
Definition specified_nominal_width (self : Table) (fmt : FormatSpec)
    (header : string) (values : list string) : result Z :=
  if decide (fmt = PREFORMATTED) then
    segs ← mapM (fun v => Py.split v (_preformat_sep self)) values;
    Py.max (Py.len header :: map Py.len (concat segs))
  else
    Py.max (Py.len header :: map Py.len values).


(** The width the naive cut leaves to a last column of nominal width
    [nom]. *)
Definition naive_cut (self : Table) (nominal : list Z) (nom : Z) : Z :=
  Z.min nom
        (_max_width self - (total_width self nominal - nom)
         - (Py.len (_col_sep self) - 1)).

(** The order in which the sweep of [next_reducable_column_idx] visits
    the columns: wider first, and among equal widths the lower index
    first. *)
Definition visited_before (a b : nat * Z) : Prop :=
  b.2 < a.2 \/ (b.2 = a.2 /\ (a.1 < b.1)%nat).

(** The loop over [zip(values, self.column_widths, self._format_spec)]
    of [lines_for_row]: the formatted value of every column, each one a
    list of lines. *)
Definition formatted_columns (wrap : string -> Z -> result (list string))
    (self : Table) (values : list string) (widths : list Z)
  : result (list (list string)) :=
  mapM (fun t => format_value wrap self t.1 t.2.1 t.2.2)
       (zip values (zip widths (_format_spec self))).

(** The text of column [j] on line [k] of a row whose formatted values
    are [cols]: line [k] of the formatted value of the column, and the
    empty text where that value has fewer lines, the [fillvalue] of
    [zip_longest]. *)
Definition column_text (cols : list (list string)) (k j : nat) : string :=
  match cols !! j with
  | Some col => nth k col ""
  | None => ""
  end.

(** ** Tables used as examples *)

Module Examples.

(** A table as the initializer builds it when only [format_str],
    [col_sep] and [max_width] are given. *)
Definition table (names : list string) (data : list (list string))
    (fmts : list FormatSpec) (sep : string) (maxw : Z) : Table :=
  {| _column_names := names;
     _data := data;
     _head_underline := " ";
     _col_sep := sep;
     _format_spec := fmts;
     _max_width := maxw;
     _preformat_sep := ", ";
     _dots := "...";
     _column_widths := [] |}.

Definition kw (fs : option string) (sep : option string) (mw : option Z)
  : kwargs :=
  mkKwargs None sep fs mw None None.

(** [Table(["ID", "Name"], [["1", "Ann"], ["2", "Alexandra"]])] *)
Definition people : Table :=
  table ["ID"; "Name"] [["1"; "Ann"]; ["2"; "Alexandra"]]
        [WRAPPED; WRAPPED] " " 100.

(** [Table(["Name"], [["Alexandria"]], format_str="t")] *)
Definition one_truncated : Table :=
  table ["Name"] [["Alexandria"]] [TRUNCATED] " " 100.

(** [Table(["ab", "cd"], [["abcd", "cdef"]], col_sep="  ", max_width=10)] *)
Definition wide_separator : Table :=
  table ["ab"; "cd"] [["abcd"; "cdef"]] [WRAPPED; WRAPPED] "  " 10.

(** [Table(["0123456789", "abc"], [["0123456789", "abc"]],
    format_str="pp", max_width=5)] *)
Definition too_narrow : Table :=
  table ["0123456789"; "abc"] [["0123456789"; "abc"]]
        [PREFORMATTED; PREFORMATTED] " " 5.


(** [Table(["a", "abcdefghij"], [["hello", "x"]], format_str="pp",
    max_width=15)] *)
Definition squeezed : Table :=
  table ["a"; "abcdefghij"] [["hello"; "x"]]
        [PREFORMATTED; PREFORMATTED] " " 15.

(** [Table(["a, b"], [["x"]], format_str="p")] *)
Definition split_header : Table :=
  table ["a, b"] [["x"]] [PREFORMATTED] " " 100.

(** [Table([], [])] *)
Definition no_columns : Table := table [] [] [] " " 100.

(** [Table([], [[]])] *)
Definition no_columns_one_row : Table := table [] [[]] [] " " 100.

End Examples.

(** * Properties *)

(** ** The built-ins at work *)

Example split_scenario : Py.split "a, bb, ccc" ", " = Ok ["a"; "bb"; "ccc"].
Proof. reflexivity. Qed.

Example split_trailing : Py.split "a, " ", " = Ok ["a"; ""].
Proof. reflexivity. Qed.

Example sorted_stable :
  Py.sorted_desc (Py.enumerate [3; 5; 3; 5])
  = [(1%nat, 5); (3%nat, 5); (0%nat, 3); (2%nat, 3)].
Proof. reflexivity. Qed.

(** ** Results and loops over lists *)

Ltac unfold_result :=
  unfold mbind, result_bind, mret, result_ret in *.

Lemma bind_Ok {A B} (m : result A) (f : A -> result B) (b : B) :
  (m ≫= f) = Ok b <-> exists a, m = Ok a /\ f a = Ok b.
Proof.
  unfold_result. destruct m as [a|e]; split.
  - intros H. exists a. split; [reflexivity | exact H].
  - intros (a' & Ha & Hf). congruence.
  - discriminate.
  - intros (a' & Ha & _). discriminate.
Qed.


Lemma mapM_Forall2 {A B} (f : A -> result B) (l : list A) (ys : list B) :
  mapM f l = Ok ys <-> Forall2 (fun x y => f x = Ok y) l ys.
Proof.
  revert ys. induction l as [|x l IH]; intros ys; simpl.
  - split.
    + intros [= <-]. constructor.
    + intros H. inversion H. reflexivity.
  - rewrite bind_Ok. split.
    + intros (y & Hy & H). apply bind_Ok in H as (ys' & Hys & [= <-]).
      constructor; [exact Hy | apply IH, Hys].
    + intros H. inversion H as [|? y ? ys' Hy Hys]; subst.
      exists y. split; [exact Hy |]. apply bind_Ok. exists ys'.
      split; [apply IH, Hys | reflexivity].
Qed.

Lemma mapM_length {A B} (f : A -> result B) (l : list A) (ys : list B) :
  mapM f l = Ok ys -> length ys = length l.
Proof.
  intros H. apply mapM_Forall2 in H. symmetry. exact (Forall2_length _ _ _ H).
Qed.

Lemma mapM_is_Ok {A B} (f : A -> result B) (l : list A) :
  Forall (fun x => is_Ok (f x)) l -> is_Ok (mapM f l).
Proof.
  induction 1 as [|x l [y Hy] _ [ys Hys]]; simpl.
  - exists []. reflexivity.
  - exists (y :: ys). rewrite Hy, Hys. reflexivity.
Qed.


Lemma mapM_post {A B C} (f : A -> result B) (g : B -> C) (l : list A) :
  mapM (fun x => f x ≫= fun y => Ok (g y)) l
  = mapM f l ≫= fun ys => Ok (map g ys).
Proof.
  induction l as [|x l IH]; simpl; [reflexivity |].
  rewrite IH. unfold_result.
  destruct (f x); [|reflexivity]. destruct (mapM f l); reflexivity.
Qed.

(** ** Strings *)

Lemma len_nonneg (s : string) : 0 <= Py.len s.
Proof. unfold Py.len. lia. Qed.

Lemma length_app_str (a b : string) :
  String.length (a +:+ b) = (String.length a + String.length b)%nat.
Proof. induction a as [|c a IH]; simpl; [reflexivity | rewrite IH; reflexivity]. Qed.

Lemma len_app (a b : string) : Py.len (a +:+ b) = Py.len a + Py.len b.
Proof. unfold Py.len. rewrite length_app_str. lia. Qed.


Lemma length_repeat_nat (s : string) (n : nat) :
  String.length (Py.repeat_nat s n) = (n * String.length s)%nat.
Proof.
  induction n as [|n IH]; simpl; [reflexivity |].
  rewrite length_app_str, IH. reflexivity.
Qed.

Lemma len_str_mul (s : string) (n : Z) :
  Py.len (Py.str_mul s n) = Z.max 0 n * Py.len s.
Proof.
  unfold Py.str_mul, Py.len. rewrite length_repeat_nat. lia.
Qed.

Lemma str_mul_nonpos (s : string) (n : Z) : n <= 0 -> Py.str_mul s n = "".
Proof.
  intros Hn. unfold Py.str_mul. replace (Z.to_nat n) with 0%nat by lia.
  reflexivity.
Qed.

Lemma length_str_take (n : nat) (s : string) :
  String.length (Py.str_take n s) = Nat.min n (String.length s).
Proof.
  revert s. induction n as [|n IH]; intros [|c s]; simpl; try reflexivity.
  rewrite IH. reflexivity.
Qed.

Lemma str_take_prefix (n : nat) (s : string) :
  exists rest, s = Py.str_take n s +:+ rest.
Proof.
  revert s. induction n as [|n IH]; intros s.
  - exists s. destruct s; reflexivity.
  - destruct s as [|c s]; [exists ""; reflexivity |].
    destruct (IH s) as [rest Hrest]. exists rest.
    change (String c s = String c (Py.str_take n s +:+ rest)).
    f_equal. exact Hrest.
Qed.

Lemma len_slice_to (s : string) (k : Z) :
  0 <= k <= Py.len s -> Py.len (Py.slice_to s k) = k.
Proof.
  intros Hk. unfold Py.slice_to.
  destruct (Z.ltb_spec k 0) as [Hneg|_]; [lia |].
  unfold Py.len in *. rewrite length_str_take. lia.
Qed.


Lemma format_ljust_Ok (v : string) (w : Z) (seg : string) :
  Py.format_ljust v w = Ok seg ->
  0 <= w /\ seg = v +:+ Py.str_mul " " (w - Py.len v)
  /\ Py.len seg = Z.max w (Py.len v).
Proof.
  unfold Py.format_ljust. destruct (Z.ltb_spec w 0) as [|Hw]; [discriminate |].
  intros [= <-]. split; [exact Hw |]. split; [reflexivity |].
  rewrite len_app, len_str_mul. change (Py.len " ") with 1.
  pose proof (len_nonneg v). lia.
Qed.

(** ** [max], [sum] and indexing *)

Lemma foldl_max_spec (l : list Z) (x : Z) :
  (foldl Z.max x l = x \/ foldl Z.max x l ∈ l)
  /\ x <= foldl Z.max x l
  /\ Forall (fun y => y <= foldl Z.max x l) l.
Proof.
  revert x. induction l as [|y l IH]; intros x; simpl.
  - split; [left; reflexivity |]. split; [lia | constructor].
  - destruct (IH (Z.max x y)) as (Hin & Hle & Hall).
    split; [| split].
    + destruct Hin as [Heq | Hin].
      * destruct (Z.max_spec x y) as [[_ Hm] | [_ Hm]]; rewrite Hm in *.
        -- right. rewrite Heq. apply list_elem_of_here.
        -- left. exact Heq.
      * right. apply list_elem_of_further, Hin.
    + lia.
    + constructor; [lia | exact Hall].
Qed.

Lemma max_spec (l : list Z) (m : Z) :
  Py.max l = Ok m -> m ∈ l /\ Forall (fun y => y <= m) l.
Proof.
  destruct l as [|x l]; simpl; [discriminate |]. intros [= <-].
  destruct (foldl_max_spec l x) as (Hin & Hle & Hall). split.
  - destruct Hin as [-> | Hin];
      [apply list_elem_of_here | apply list_elem_of_further, Hin].
  - constructor; assumption.
Qed.

Lemma max_is_Ok (x : Z) (l : list Z) : is_Ok (Py.max (x :: l)).
Proof. eexists. reflexivity. Qed.

Lemma getitem_Ok {A} (l : list A) (i : nat) (x : A) :
  Py.getitem l i = Ok x <-> l !! i = Some x.
Proof.
  unfold Py.getitem. destruct (l !! i); split; intros H; congruence.
Qed.

Lemma getitem_last_Ok {A} (l : list A) (x : A) :
  Py.getitem_last l = Ok x <-> l !! pred (length l) = Some x.
Proof.
  unfold Py.getitem_last. rewrite last_lookup.
  destruct (l !! pred (length l)); split; intros H; congruence.
Qed.

(** ** The initializer *)

Lemma assert_Ok (c : bool) (u : unit) : assert_ c = Ok u -> c = true.
Proof. destruct c; [reflexivity | discriminate]. Qed.

Lemma length_list_ascii (s : string) :
  length (list_ascii_of_string s) = String.length s.
Proof. induction s as [|c s IH]; simpl; [reflexivity | rewrite IH; reflexivity]. Qed.

Lemma str_or_nonempty (o : option string) (d : string) :
  d <> "" -> str_or o d <> "".
Proof.
  intros Hd. unfold str_or. destruct o as [s|]; [| exact Hd].
  destruct (String.eqb_spec s ""); [exact Hd | assumption].
Qed.

Lemma constructed_set_column_widths (self : Table) (ws : list Z) :
  constructed self -> constructed (set_column_widths self ws).
Proof. intros [? ? ? ? ? ?]. constructor; assumption. Qed.

Lemma init_constructed tc names data kw (T : Table) :
  __init__ tc names data kw = Ok T ->
  constructed T /\ _column_widths T = []
  /\ _column_names T = names /\ _data T = data.
Proof.
  unfold __init__. intros H.
  apply bind_Ok in H as (u1 & H1 & H). apply assert_Ok in H1.
  apply bind_Ok in H as (u2 & H2 & H). apply assert_Ok in H2.
  apply bind_Ok in H as (u3 & H3 & H). apply assert_Ok in H3.
  apply bind_Ok in H as (u4 & H4 & H). apply assert_Ok in H4.
  apply bind_Ok in H as (u5 & H5 & H). apply assert_Ok in H5.
  apply bind_Ok in H as (fmts & Hf & H). injection H as <-.
  split; [| repeat split]. constructor; simpl.
  - apply List.Forall_forall. intros r Hr.
    apply (proj1 (forallb_forall _ _) H1 r) in Hr. apply Nat.eqb_eq, Hr.
  - destruct (truthy_str (format_str kw)); simpl in H2.
    + apply mapM_length in Hf. rewrite Hf, length_list_ascii.
      apply Nat.eqb_eq, H2.
    + injection Hf as <-. apply length_replicate.
  - apply str_or_nonempty. discriminate.
  - apply str_or_nonempty. discriminate.
  - apply str_or_nonempty. discriminate.
  - unfold str_or, truthy_str in *. destruct (head_underline kw) as [s|];
      [| reflexivity].
    simpl in H4. destruct (String.eqb s ""); simpl in H4;
      [reflexivity | apply Nat.eqb_eq, H4].
Qed.

(** ** The columns and their nominal widths *)

Lemma heads_Some {A} (rest : list (list A)) (n : nat) :
  Forall (fun r => length r = S n) rest ->
  Py.heads rest = Some (omap (fun r : list A => r !! 0%nat) rest).
Proof.
  induction 1 as [|r rest Hr _ IH]; simpl; [reflexivity |].
  destruct r as [|x r]; [discriminate |]. rewrite IH. reflexivity.
Qed.

Lemma omap_lookup_drop {A} (rest : list (list A)) (j : nat) :
  omap (fun r : list A => r !! j) (map (drop 1) rest)
  = omap (fun r : list A => r !! S j) rest.
Proof.
  induction rest as [|r rest IH]; simpl; [reflexivity |].
  rewrite lookup_drop. simpl. unfold omap in IH. rewrite IH. reflexivity.
Qed.

Lemma zip_star_lookup {A} (first : list A) (rest : list (list A)) (j : nat) :
  Forall (fun r => length r = length first) rest ->
  Py.zip_star first rest !! j
  = (fun h => h :: omap (fun r : list A => r !! j) rest) <$> first !! j.
Proof.
  revert rest j. induction first as [|x first IH]; intros rest j Hall.
  - reflexivity.
  - simpl. rewrite (heads_Some rest (length first) Hall).
    destruct j as [|j]; simpl; [reflexivity |].
    rewrite IH.
    + rewrite omap_lookup_drop. reflexivity.
    + apply Forall_fmap. eapply Forall_impl; [exact Hall |].
      intros r Hr. simpl in *. rewrite length_drop. lia.
Qed.

Lemma zip_star_length {A} (first : list A) (rest : list (list A)) :
  Forall (fun r => length r = length first) rest ->
  length (Py.zip_star first rest) = length first.
Proof.
  intros Hall.
  destruct (decide (length (Py.zip_star first rest) = length first)) as [|Hne];
    [assumption | exfalso].
  destruct (decide (length (Py.zip_star first rest) < length first)%nat) as [Hlt|Hge].
  - pose proof (zip_star_lookup first rest (length (Py.zip_star first rest)) Hall) as H.
    rewrite (proj2 (lookup_ge_None _ _)) in H by lia.
    destruct (lookup_lt_is_Some_2 first _ Hlt) as [h Hh]. rewrite Hh in H.
    discriminate.
  - pose proof (zip_star_lookup first rest (length first) Hall) as H.
    rewrite (proj2 (lookup_ge_None first _)) in H by lia.
    assert (length first < length (Py.zip_star first rest))%nat as Hlt by lia.
    destruct (lookup_lt_is_Some_2 _ _ Hlt) as [c Hc]. rewrite Hc in H.
    discriminate.
Qed.

Lemma split_go_nonempty (sep : string) (k : nat) (acc s : string) :
  Py.split_go sep k acc s <> [].
Proof.
  revert k acc. induction s as [|c s IH]; intros k acc; simpl; [discriminate |].
  destruct k; [| apply IH].
  match goal with
  | |- context [if ?b then _ else _] => destruct b
  end; [discriminate | apply IH].
Qed.

Lemma split_Ok (s sep : string) :
  sep <> "" -> exists l, Py.split s sep = Ok l /\ l <> [].
Proof.
  intros Hsep. unfold Py.split. destruct (decide (sep = "")); [contradiction |].
  eexists. split; [reflexivity | apply split_go_nonempty].
Qed.

Lemma preliminary_is_Ok (self : Table) (f : FormatSpec) (h : string)
    (vs : list string) :
  _preformat_sep self <> "" -> is_Ok (preliminary_width self f (h :: vs)).
Proof.
  intros Hsep. unfold preliminary_width.
  destruct (decide (f = PREFORMATTED)); [| apply max_is_Ok].
  destruct (mapM_is_Ok (fun row => Py.split row (_preformat_sep self)) (h :: vs))
    as [col_lines Hcl].
  { apply List.Forall_forall. intros row _.
    destruct (split_Ok row _ Hsep) as (l & Hl & _). exists l. exact Hl. }
  rewrite Hcl. unfold_result.
  apply mapM_Forall2 in Hcl. inversion Hcl as [|? l0 ? ls Hl0 _]; subst.
  destruct (split_Ok h _ Hsep) as (l & Hl & Hne).
  rewrite Hl in Hl0. injection Hl0 as <-.
  destruct l as [|x l]; [contradiction |]. simpl. apply max_is_Ok.
Qed.

Lemma append_widths_spec (cols : list (FormatSpec * list string))
    (self : Table) (ws : list Z) :
  mapM (fun fc => preliminary_width self fc.1 fc.2) cols = Ok ws ->
  append_widths self cols
  = (Ok tt, set_column_widths self (_column_widths self ++ ws)).
Proof.
  revert self ws. induction cols as [|[f c] cols IH]; intros self ws; simpl.
  - intros [= <-]. rewrite app_nil_r. destruct self; reflexivity.
  - intros H. apply bind_Ok in H as (w & Hw & H).
    apply bind_Ok in H as (ws' & Hws & [= <-]). simpl in Hw. rewrite Hw.
    rewrite (IH _ ws') by exact Hws. simpl. rewrite <- app_assoc. reflexivity.
Qed.

Lemma columns_is_Ok (self : Table) :
  constructed self ->
  is_Ok (mapM (fun fc => preliminary_width self fc.1 fc.2)
           (zip (_format_spec self)
                (Py.zip_star (_column_names self) (_data self)))).
Proof.
  intros C. apply mapM_is_Ok, Forall_lookup. intros j [f c] Hj.
  apply lookup_zip_Some in Hj as [_ Hc].
  rewrite (zip_star_lookup _ _ _ (rows_length _ C)) in Hc.
  destruct (_column_names self !! j) as [h|]; [| discriminate].
  injection Hc as <-. apply preliminary_is_Ok, (preformat_sep_nonempty _ C).
Qed.

Lemma nominal_widths_spec (self : Table) :
  constructed self ->
  mapM (fun fc => preliminary_width self fc.1 fc.2)
    (zip (_format_spec self) (Py.zip_star (_column_names self) (_data self)))
  = Ok (nominal_widths self).
Proof.
  intros C. destruct (columns_is_Ok self C) as [ws Hws]. rewrite Hws.
  unfold nominal_widths.
  rewrite (append_widths_spec _ (set_column_widths self []) ws) by exact Hws.
  reflexivity.
Qed.

Lemma nominal_length (self : Table) :
  constructed self ->
  length (nominal_widths self) = length (_column_names self).
Proof.
  intros C. pose proof (nominal_widths_spec self C) as H.
  apply mapM_length in H. rewrite H, length_zip.
  rewrite (zip_star_length _ _ (rows_length _ C)), (format_length _ C). lia.
Qed.

Lemma nominal_lookup (self : Table) (j : nat) (h : string) (f : FormatSpec) :
  constructed self ->
  _column_names self !! j = Some h ->
  _format_spec self !! j = Some f ->
  exists w, nominal_widths self !! j = Some w
    /\ preliminary_width self f (h :: column_values (_data self) j) = Ok w.
Proof.
  intros C Hh Hf. pose proof (nominal_widths_spec self C) as H.
  apply mapM_Forall2 in H.
  assert (zip (_format_spec self)
              (Py.zip_star (_column_names self) (_data self)) !! j
          = Some (f, h :: column_values (_data self) j)) as Hz.
  { apply lookup_zip_Some. split; [exact Hf |].
    rewrite (zip_star_lookup _ _ _ (rows_length _ C)), Hh. reflexivity. }
  destruct (Forall2_lookup_l _ _ _ _ _ H Hz) as (w & Hw & Hp).
  exists w. split; assumption.
Qed.

Lemma column_widths_fresh (self : Table) :
  constructed self ->
  _column_widths self = [] ->
  column_widths self
  = match _redistribute_widths (set_column_widths self (nominal_widths self)) with
    | None => None
    | Some (Raise e) =>
        Some (Raise e, set_column_widths self (nominal_widths self))
    | Some (Ok widths) => Some (Ok widths, set_column_widths self widths)
    end.
Proof.
  intros C Hfresh. unfold column_widths. rewrite Hfresh.
  rewrite (append_widths_spec _ self (nominal_widths self))
    by apply nominal_widths_spec, C.
  rewrite Hfresh. simpl. reflexivity.
Qed.

(** ** The sweep over the sorted widths *)

Lemma map_fmap {A B} (f : A -> B) (l : list A) : map f l = f <$> l.
Proof. reflexivity. Qed.

Lemma insert_desc_perm (t : nat * Z) (l : list (nat * Z)) :
  Py.insert_desc t l ≡ₚ t :: l.
Proof.
  induction l as [|u l IH]; simpl; [reflexivity |].
  destruct (u.2 <=? t.2); [reflexivity |].
  rewrite IH. apply perm_swap.
Qed.

Lemma sorted_desc_perm (l : list (nat * Z)) : Py.sorted_desc l ≡ₚ l.
Proof.
  induction l as [|t l IH]; simpl; [reflexivity |].
  rewrite insert_desc_perm, IH. reflexivity.
Qed.

Lemma elem_of_sorted (widths : list Z) (i : nat) (w : Z) :
  (i, w) ∈ Py.sorted_desc (Py.enumerate widths) <-> widths !! i = Some w.
Proof.
  rewrite sorted_desc_perm. unfold Py.enumerate.
  rewrite elem_of_lookup_imap. split.
  - intros (i' & w' & [= -> ->] & H). exact H.
  - intros H. exists i, w. split; [reflexivity | exact H].
Qed.

Lemma sweep_cons (self : Table) (i : nat) (w : Z) (l : list (nat * Z)) :
  sweep self ((i, w) :: l)
  = match wide_at self i w with
    | Ok true => Ok (Z.of_nat i)
    | Ok false => sweep self l
    | Raise e => Raise e
    end.
Proof.
  simpl. unfold wide_at. unfold_result.
  destruct (Py.getitem (_column_names self) i); [| reflexivity].
  destruct (Py.getitem (_format_spec self) i); [| reflexivity].
  destruct (Py.getitem (_column_widths self) i); [| reflexivity].
  destruct (column_is_wide_enough self w a a0 a1) as [[|]|]; reflexivity.
Qed.

Lemma sweep_Ok (self : Table) (l : list (nat * Z)) (z : Z) :
  sweep self l = Ok z ->
  (z = -1 /\ Forall (fun t => wide_at self t.1 t.2 = Ok false) l)
  \/ (exists i w, (i, w) ∈ l /\ z = Z.of_nat i /\ wide_at self i w = Ok true).
Proof.
  induction l as [|[i w] l IH].
  - simpl. intros [= <-]. left. split; [reflexivity | constructor].
  - rewrite sweep_cons. destruct (wide_at self i w) as [[|]|] eqn:Hw.
    + intros [= <-]. right. exists i, w.
      split; [apply list_elem_of_here |]. split; [reflexivity | exact Hw].
    + intros H. destruct (IH H) as [[-> Hall] | (i' & w' & Hin & -> & Hw')].
      * left. split; [reflexivity |]. constructor; [exact Hw | exact Hall].
      * right. exists i', w'. split; [apply list_elem_of_further, Hin |].
        split; [reflexivity | exact Hw'].
    + discriminate.
Qed.

Lemma wide_at_true (self : Table) (i : nat) (w : Z) :
  wide_at self i w = Ok true ->
  exists h f nom,
    _column_names self !! i = Some h
    /\ _format_spec self !! i = Some f
    /\ _column_widths self !! i = Some nom
    /\ ((f = WRAPPED /\ Py.len h <= w) \/ (f = PREFORMATTED /\ nom <= w)).
Proof.
  unfold wide_at. intros H.
  apply bind_Ok in H as (h & Hh & H). apply bind_Ok in H as (f & Hf & H).
  apply bind_Ok in H as (nom & Hn & H).
  apply getitem_Ok in Hh, Hf, Hn. exists h, f, nom.
  repeat (split; [assumption |]).
  destruct f; simpl in H.
  - right. split; [reflexivity |]. injection H as H. apply Z.leb_le, H.
  - left. split; [reflexivity |]. injection H as H. apply Z.leb_le, H.
  - discriminate.
Qed.

Lemma wide_at_truncated (self : Table) (i : nat) (w : Z) :
  _format_spec self !! i = Some TRUNCATED ->
  is_Some (_column_names self !! i) ->
  is_Some (_column_widths self !! i) ->
  wide_at self i w = Raise TypeError.
Proof.
  intros Hf [h Hh] [nom Hn]. unfold wide_at, Py.getitem.
  rewrite Hh, Hf, Hn. reflexivity.
Qed.

Lemma getitem_last_getitem {A} (l : list A) :
  Py.getitem_last l = Py.getitem l (pred (length l)).
Proof. unfold Py.getitem_last, Py.getitem. rewrite last_lookup. reflexivity. Qed.

(** Under [synced], the check of the last column in the loop condition
    is the check the sweep makes at the last index. *)
Lemma loop_test_synced (self : Table) (widths : list Z) :
  synced self widths ->
  loop_test self widths
  = (next_reducable_column_idx self widths ≫= fun to_reduce =>
     if 0 <=? to_reduce then
       Py.getitem_last widths ≫= fun width =>
       wide_at self (pred (length widths)) width ≫= fun b =>
       Ok (to_reduce, negb b)
     else Ok (to_reduce, false)).
Proof.
  intros (Hn & Hf & Hc). unfold loop_test, wide_at.
  rewrite !getitem_last_getitem, Hn, Hf, Hc. unfold_result.
  destruct (next_reducable_column_idx self widths) as [z|]; [| reflexivity].
  destruct (0 <=? z); [| reflexivity].
  destruct (Py.getitem widths _); [| reflexivity].
  destruct (Py.getitem (_column_names self) _); [| reflexivity].
  destruct (Py.getitem (_format_spec self) _); [| reflexivity].
  destruct (Py.getitem (_column_widths self) _); reflexivity.
Qed.

(** ** One turn of the REDISTRIBUTE loop *)

(** When the body runs, the column to reduce is wide enough, the last
    column is not, so they differ, and the body moves one character from
    the one to the other. *)
Lemma loop_step (self : Table) (widths : list Z) (z : Z) :
  synced self widths ->
  loop_test self widths = Ok (z, true) ->
  exists i w l,
    z = Z.of_nat i
    /\ (S i < length widths)%nat
    /\ widths !! i = Some w
    /\ wide_at self i w = Ok true
    /\ widths !! pred (length widths) = Some l
    /\ wide_at self (pred (length widths)) l = Ok false
    /\ loop_body widths z
       = Ok (<[pred (length widths) := l + 1]> (<[i := w - 1]> widths)).
Proof.
  intros Hs H. rewrite loop_test_synced in H by exact Hs.
  apply bind_Ok in H as (z0 & Hz0 & H).
  destruct (Z.leb_spec 0 z0) as [Hpos|]; [| discriminate].
  apply bind_Ok in H as (l & Hl & H). apply bind_Ok in H as (b & Hb & H).
  injection H as -> Hnb. destruct b; [discriminate |].
  apply getitem_last_Ok in Hl.
  unfold next_reducable_column_idx in Hz0.
  apply sweep_Ok in Hz0 as [[-> _] | (i & w & Hin & -> & Hw)]; [lia |].
  apply elem_of_sorted in Hin.
  assert (i <> pred (length widths)) as Hne.
  { intros ->. rewrite Hin in Hl. injection Hl as ->. congruence. }
  pose proof (lookup_lt_Some _ _ _ Hin) as Hlt.
  exists i, w, l. repeat (split; [first [reflexivity | assumption | lia] |]).
  unfold loop_body. rewrite Nat2Z.id.
  rewrite (proj2 (getitem_Ok _ _ _) Hin). unfold_result.
  rewrite getitem_last_getitem, length_insert.
  rewrite (proj2 (getitem_Ok _ _ l)); [reflexivity |].
  rewrite list_lookup_insert_ne by exact Hne. exact Hl.
Qed.

Lemma synced_insert (self : Table) (widths : list Z) (i : nat) (x : Z) :
  synced self widths -> synced self (<[i := x]> widths).
Proof. unfold synced. rewrite length_insert. tauto. Qed.

(** ** The loop variant *)

Lemma sum_imap_insert (g : nat -> Z -> Z) (l : list Z) (i : nat) (x w : Z) :
  l !! i = Some w ->
  Py.sum (imap g (<[i := x]> l)) = Py.sum (imap g l) - g i w + g i x.
Proof.
  revert g i. induction l as [|y l IH]; intros g i H; [discriminate |].
  destruct i as [|i]; simpl in *.
  - injection H as ->. lia.
  - rewrite (IH _ _ H). simpl. lia.
Qed.

Lemma sum_imap_nonneg (g : nat -> Z -> Z) (l : list Z) :
  (forall i w, 0 <= g i w) -> 0 <= Py.sum (imap g l).
Proof.
  revert g. induction l as [|y l IH]; intros g Hg; simpl; [lia |].
  specialize (IH (g ∘ S)). pose proof (Hg 0%nat y).
  assert (0 <= Py.sum (imap (g ∘ S) l)) by (apply IH; intros; apply Hg). lia.
Qed.

Lemma variant_imap (self : Table) (widths : list Z) :
  variant self widths
  = Py.sum (imap (fun i w => slack self (length widths) (i, w)) widths).
Proof. unfold variant, Py.enumerate. rewrite map_fmap, fmap_imap. reflexivity. Qed.

Lemma slack_nonneg (self : Table) (n : nat) (t : nat * Z) : 0 <= slack self n t.
Proof.
  unfold slack. destruct (decide (S t.1 = n)); [lia |].
  destruct (_format_spec self !! t.1) as [[| |]|]; try lia.
  - destruct (_column_widths self !! t.1); lia.
  - destruct (_column_names self !! t.1); lia.
Qed.

Lemma variant_nonneg (self : Table) (widths : list Z) : 0 <= variant self widths.
Proof. rewrite variant_imap. apply sum_imap_nonneg. intros. apply slack_nonneg. Qed.

Lemma slack_wide (self : Table) (n i : nat) (w : Z) :
  S i <> n ->
  wide_at self i w = Ok true ->
  slack self n (i, w - 1) = slack self n (i, w) - 1.
Proof.
  intros Hne Hw. apply wide_at_true in Hw as (h & f & nom & Hh & Hf & Hn & Hcase).
  unfold slack. simpl. destruct (decide (S i = n)); [contradiction |].
  rewrite Hf, Hh, Hn. destruct Hcase as [[-> Hle] | [-> Hle]]; simpl.
  - lia.
  - lia.
Qed.

Lemma slack_last (self : Table) (n : nat) (w : Z) :
  (0 < n)%nat -> slack self n (pred n, w) = 0.
Proof.
  intros Hn. unfold slack. simpl.
  destruct (decide (S (pred n) = n)); [reflexivity | lia].
Qed.

Lemma variant_decreases (self : Table) (widths : list Z) (i : nat) (w l : Z) :
  (S i < length widths)%nat ->
  widths !! i = Some w ->
  wide_at self i w = Ok true ->
  widths !! pred (length widths) = Some l ->
  variant self (<[pred (length widths) := l + 1]> (<[i := w - 1]> widths))
  = variant self widths - 1.
Proof.
  intros Hlt Hi Hw Hl. rewrite !variant_imap, !length_insert.
  rewrite (sum_imap_insert _ _ _ _ l)
    by (rewrite list_lookup_insert_ne by lia; exact Hl).
  rewrite (sum_imap_insert _ _ _ _ w) by exact Hi.
  rewrite !slack_last by lia. assert (S i <> length widths) as Hne by lia.
  rewrite (slack_wide self (length widths) i w Hne Hw). lia.
Qed.

(** ** Termination of the loop *)

Lemma redistribute_loop_terminates (self : Table) (fuel : nat) (widths : list Z) :
  synced self widths ->
  (Z.to_nat (variant self widths) < fuel)%nat ->
  exists r, redistribute_loop fuel self widths = Some r.
Proof.
  revert widths. induction fuel as [|fuel IH]; intros widths Hs Hv; [lia |].
  simpl. destruct (loop_test self widths) as [[z [|]]|e] eqn:Ht.
  - destruct (loop_step _ _ _ Hs Ht)
      as (i & w & l & -> & Hlt & Hi & Hw & Hl & _ & Hbody).
    rewrite Hbody. apply IH.
    + apply synced_insert, synced_insert, Hs.
    + rewrite (variant_decreases _ _ _ _ _ Hlt Hi Hw Hl).
      pose proof (variant_nonneg self widths).
      pose proof (variant_nonneg self
        (<[pred (length widths) := l + 1]> (<[i := w - 1]> widths))) as Hv'.
      rewrite (variant_decreases _ _ _ _ _ Hlt Hi Hw Hl) in Hv'. lia.
  - eexists. reflexivity.
  - eexists. reflexivity.
Qed.

Lemma redistribute_loop_mono (self : Table) (fuel fuel' : nat)
    (widths : list Z) (r : result (list Z)) :
  redistribute_loop fuel self widths = Some r ->
  (fuel <= fuel')%nat ->
  redistribute_loop fuel' self widths = Some r.
Proof.
  revert fuel' widths. induction fuel as [|fuel IH]; intros fuel' widths H Hle;
    [discriminate |].
  destruct fuel' as [|fuel']; [lia |]. simpl in *.
  destruct (loop_test self widths) as [[z [|]]|e]; try exact H.
  destruct (loop_body widths z); [| exact H].
  apply IH; [exact H | lia].
Qed.

Lemma redistribute_loop_enough (self : Table) (widths : list Z) :
  synced self widths ->
  exists r, forall fuel, (loop_fuel self widths <= fuel)%nat ->
    redistribute_loop fuel self widths = Some r.
Proof.
  intros Hs.
  destruct (redistribute_loop_terminates self (loop_fuel self widths) widths Hs)
    as [r Hr]; [unfold loop_fuel; lia |].
  exists r. intros fuel Hle. exact (redistribute_loop_mono _ _ _ _ _ Hr Hle).
Qed.

Lemma redistribute_loop_length (self : Table) (fuel : nat)
    (widths widths' : list Z) :
  redistribute_loop fuel self widths = Some (Ok widths') ->
  length widths' = length widths.
Proof.
  revert widths. induction fuel as [|fuel IH]; intros widths H; [discriminate |].
  simpl in H. destruct (loop_test self widths) as [[z [|]]|e]; try discriminate.
  - destruct (loop_body widths z) as [ws|] eqn:Hb; [| discriminate].
    rewrite (IH _ H). unfold loop_body in Hb.
    apply bind_Ok in Hb as (w & _ & Hb). apply bind_Ok in Hb as (l & _ & [= <-]).
    rewrite !length_insert. reflexivity.
  - injection H as <-. reflexivity.
Qed.

(** An invariant of the loop holds of its result, together with the
    negation of the loop condition. *)
Lemma redistribute_loop_invariant (P : list Z -> Prop) (self : Table) :
  (forall widths i w l,
      synced self widths -> P widths ->
      (S i < length widths)%nat ->
      widths !! i = Some w ->
      wide_at self i w = Ok true ->
      widths !! pred (length widths) = Some l ->
      wide_at self (pred (length widths)) l = Ok false ->
      P (<[pred (length widths) := l + 1]> (<[i := w - 1]> widths))) ->
  forall fuel widths widths',
    synced self widths -> P widths ->
    redistribute_loop fuel self widths = Some (Ok widths') ->
    P widths' /\ exists z, loop_test self widths' = Ok (z, false).
Proof.
  intros Hstep fuel.
  induction fuel as [|fuel IH]; intros widths widths' Hs HP H; [discriminate |].
  simpl in H. destruct (loop_test self widths) as [[z [|]]|e] eqn:Ht;
    try discriminate.
  - destruct (loop_step _ _ _ Hs Ht)
      as (i & w & l & -> & Hlt & Hi & Hw & Hl & Hwl & Hbody).
    rewrite Hbody in H. eapply IH; [| | exact H].
    + apply synced_insert, synced_insert, Hs.
    + apply Hstep; assumption.
  - injection H as <-. split; [exact HP | exists z; exact Ht].
Qed.

(** ** Width resolution on a constructed table *)

Lemma synced_nominal (T : Table) (widths : list Z) :
  constructed T ->
  length widths = length (_column_names T) ->
  synced (set_column_widths T (nominal_widths T)) widths.
Proof.
  intros C Hl. unfold synced. simpl.
  rewrite (format_length _ C), (nominal_length _ C). lia.
Qed.


(** The nominal width of a column that is not preformatted is at least
    the length of its header. *)
Lemma nominal_ge_header (T : Table) (j : nat) (h : string) (f : FormatSpec) (w : Z) :
  constructed T ->
  _column_names T !! j = Some h ->
  _format_spec T !! j = Some f ->
  f <> PREFORMATTED ->
  nominal_widths T !! j = Some w ->
  Py.len h <= w.
Proof.
  intros C Hh Hf Hne Hw.
  destruct (nominal_lookup T j h f C Hh Hf) as (w' & Hw' & Hp).
  rewrite Hw in Hw'. injection Hw' as <-.
  unfold preliminary_width in Hp.
  destruct (decide (f = PREFORMATTED)); [contradiction |].
  apply max_spec in Hp as [_ Hall]. simpl in Hall.
  inversion Hall; subst. assumption.
Qed.

(** At its nominal width every column that is not truncated passes the
    check of [column_is_wide_enough]. *)
Lemma wide_at_nominal (T : Table) (i : nat) (w : Z) (f : FormatSpec) :
  constructed T ->
  nominal_widths T !! i = Some w ->
  _format_spec T !! i = Some f ->
  f <> TRUNCATED ->
  wide_at (set_column_widths T (nominal_widths T)) i w = Ok true.
Proof.
  intros C Hw Hf Hne. pose proof (lookup_lt_Some _ _ _ Hw) as Hlt.
  rewrite (nominal_length _ C) in Hlt.
  destruct (lookup_lt_is_Some_2 (_column_names T) i Hlt) as [h Hh].
  unfold wide_at, Py.getitem. simpl. rewrite Hh, Hf, Hw. unfold_result.
  destruct f; simpl; [| | contradiction].
  - f_equal. apply Z.leb_le. lia.
  - f_equal. apply Z.leb_le.
    apply (nominal_ge_header T i h WRAPPED w C Hh Hf); [discriminate | exact Hw].
Qed.

Lemma wide_at_no_IndexError (self : Table) (widths : list Z) (i : nat) (w : Z) :
  synced self widths ->
  (i < length widths)%nat ->
  wide_at self i w = Raise TypeError \/ exists b, wide_at self i w = Ok b.
Proof.
  intros (Hn & Hf & Hc) Hlt.
  destruct (lookup_lt_is_Some_2 (_column_names self) i ltac:(lia)) as [h Hh].
  destruct (lookup_lt_is_Some_2 (_format_spec self) i ltac:(lia)) as [f Hfi].
  destruct (lookup_lt_is_Some_2 (_column_widths self) i ltac:(lia)) as [nom Hnom].
  unfold wide_at, Py.getitem. rewrite Hh, Hfi, Hnom. unfold_result.
  destruct f; simpl; [right | right | left]; eauto.
Qed.

(** ** The cache of the property *)

Lemma append_widths_state (cols : list (FormatSpec * list string))
    (self self' : Table) (r : result unit) :
  append_widths self cols = (r, self') ->
  exists ws, self' = set_column_widths self ws.
Proof.
  revert self. induction cols as [|[f c] cols IH]; intros self; simpl.
  - intros [= <- <-]. exists (_column_widths self). destruct self; reflexivity.
  - destruct (preliminary_width self f c).
    + intros H. destruct (IH _ H) as [ws ->]. exists ws. reflexivity.
    + intros [= <- <-]. exists (_column_widths self). destruct self; reflexivity.
Qed.

Lemma column_widths_state (self self' : Table) (r : result (list Z)) :
  column_widths self = Some (r, self') ->
  exists ws, self' = set_column_widths self ws.
Proof.
  unfold column_widths. destruct (_column_widths self) eqn:Hcw.
  - destruct (append_widths self _) as [[u|e] self1] eqn:Ha.
    + destruct (append_widths_state _ _ _ _ Ha) as [ws ->].
      destruct (_redistribute_widths _) as [[ws'|e]|]; [| | discriminate].
      * intros [= <- <-]. exists ws'. reflexivity.
      * intros [= <- <-]. exists ws. reflexivity.
    + destruct (append_widths_state _ _ _ _ Ha) as [ws ->].
      intros [= <- <-]. exists ws. reflexivity.
  - intros [= <- <-]. exists (_column_widths self). destruct self; reflexivity.
Qed.

Lemma redistribute_widths_length (self : Table) (widths : list Z) :
  _redistribute_widths self = Some (Ok widths) ->
  length widths = length (_column_widths self) /\ _column_widths self <> [].
Proof.
  unfold _redistribute_widths.
  destruct (Py.getitem_last (_column_widths self)) as [lw|] eqn:Hl;
    [| discriminate].
  intros H. apply redistribute_loop_length in H.
  rewrite length_insert in H. split; [exact H |].
  intros Hnil. rewrite Hnil in Hl. discriminate.
Qed.

(** A successful read of the property leaves the widths it returns in
    the attribute, and every later read returns them again. *)
Lemma column_widths_cached (self self' : Table) (widths : list Z) :
  column_widths self = Some (Ok widths, self') ->
  _column_widths self' = widths
  /\ column_widths self' = Some (Ok widths, self').
Proof.
  unfold column_widths at 1. destruct (_column_widths self) as [|w ws] eqn:Hcw.
  - destruct (append_widths self _) as [[u|e] self1] eqn:Ha; [| discriminate].
    destruct (_redistribute_widths self1) as [[ws'|e]|] eqn:Hr; try discriminate.
    intros [= <- <-]. split; [reflexivity |].
    apply redistribute_widths_length in Hr as [Hlen Hne].
    unfold column_widths. simpl. destruct ws' as [|x ws'].
    + destruct (_column_widths self1); [contradiction | discriminate].
    + destruct self1; reflexivity.
  - intros [= <- <-]. split; [exact Hcw |].
    unfold column_widths. rewrite Hcw. reflexivity.
Qed.

(** ** Rendering *)

Lemma append_empty_r (s : string) : s +:+ "" = s.
Proof.
  induction s as [|c s IH]; [reflexivity |].
  change (String c (s +:+ "") = String c s). rewrite IH. reflexivity.
Qed.

Lemma lines_of_segments (wrap : string -> Z -> result (list string))
    (self : Table) (i : Z) (values : list string) (widths : list Z) :
  lines_of wrap self i values widths
  = segments_of wrap self i values widths ≫= fun rows =>
      Ok (map (Py.join (_col_sep self)) rows).
Proof.
  unfold lines_of, segments_of. unfold_result.
  destruct (mapM _ (zip values _)) as [cols|]; [| reflexivity].
  rewrite (mapM_post (justified widths) (Py.join (_col_sep self))).
  unfold_result. destruct (mapM (justified widths) _) as [rows|]; [| reflexivity].
  destruct (is_header i); [| reflexivity].
  rewrite map_app. reflexivity.
Qed.

Lemma justified_lookup (widths : list Z) (line row : list string)
    (j : nat) (seg : string) :
  justified widths line = Ok row ->
  row !! j = Some seg ->
  exists v w, line !! j = Some v /\ widths !! j = Some w
    /\ Py.format_ljust v w = Ok seg.
Proof.
  unfold justified. intros H Hj. apply mapM_Forall2 in H.
  destruct (Forall2_lookup_r _ _ _ _ _ H Hj) as ([v w] & Hz & Hf).
  apply lookup_zip_Some in Hz as [Hv Hw]. exists v, w. auto.
Qed.

Lemma underlines_lookup (self : Table) (widths : list Z) (j : nat) (seg : string) :
  underlines self widths !! j = Some seg ->
  exists w, widths !! j = Some w /\ seg = Py.str_mul (_head_underline self) w.
Proof.
  unfold underlines. rewrite map_fmap, list_lookup_fmap.
  destruct (widths !! j) as [w|]; [| discriminate].
  intros [= <-]. exists w. auto.
Qed.

Lemma segments_of_rows (wrap : string -> Z -> result (list string))
    (self : Table) (i : Z) (values : list string) (widths : list Z)
    (rows : list (list string)) (row : list string) :
  segments_of wrap self i values widths = Ok rows ->
  row ∈ rows ->
  (exists line, justified widths line = Ok row)
  \/ (is_header i = true /\ row = underlines self widths).
Proof.
  unfold segments_of. intros H Hin.
  apply bind_Ok in H as (cols & _ & H). apply bind_Ok in H as (rs & Hrs & H).
  assert (row ∈ rs -> exists line, justified widths line = Ok row) as Hjust.
  { intros Hr. apply list_elem_of_lookup in Hr as [k Hk].
    apply mapM_Forall2 in Hrs.
    destruct (Forall2_lookup_r _ _ _ _ _ Hrs Hk) as (line & _ & Hl). eauto. }
  destruct (is_header i); injection H as <-.
  - apply elem_of_app in Hin as [Hr | Hu]; [left; auto |].
    apply list_elem_of_singleton in Hu. right. auto.
  - left. auto.
Qed.

(** * The properties of the specification *)

(** ** The check of a truncated column *)

(** C4.  The specification asks that a truncated column be judged wide
    enough exactly when its width is at least
    [max(len(header), len(dots) + 3)], and that the check never fail.
    The code evaluates [len(self._dots + 3)], the sum of a [str] and an
    [int], so the check of a truncated column raises [TypeError] for
    every width, header and nominal width. *)
Theorem truncated_check_raises (self : Table) (width : Z) (header : string)
    (nominal_width : Z) :
  column_is_wide_enough self width header TRUNCATED nominal_width
  = Raise TypeError.
Proof. reflexivity. Qed.

(** ** The initializer and a [max_width] of zero *)

(** C8.  The specification asks that a [max_width] of [0] be refused.
    The assertion [(not max_width) or (max_width > 0)] lets [0] through,
    and [max_width or min(...)] then replaces it by the default: the
    initializer treats [max_width=0] exactly as [max_width=None]. *)
Theorem zero_max_width_is_default (tc : Z) (names : list string)
    (data : list (list string)) (hu cs fs ps d : option string) :
  __init__ tc names data (mkKwargs hu cs fs (Some 0) ps d)
  = __init__ tc names data (mkKwargs hu cs fs None ps d)
  /\ __init__ 80 ["a"] [["x"]] (Examples.kw None None (Some 0))
     = Ok (Examples.table ["a"] [["x"]] [WRAPPED] " " 80)
  /\ __init__ 80 ["a"] [["x"]] (Examples.kw None None (Some (-1)))
     = Raise AssertionError.
Proof. repeat split; reflexivity. Qed.

(** ** Indexing *)

Lemma values_for_row_bounds (self : Table) (i : Z) :
  (i < 0 -> values_for_row self i = Ok (_column_names self))
  /\ (values_for_row self i = Raise IndexError <-> __len__ self <= i)
  /\ (forall e, values_for_row self i = Raise e -> e = IndexError).
Proof.
  unfold values_for_row, is_header, __len__, Py.getitem.
  destruct (Z.ltb_spec i 0) as [Hi|Hi].
  - split; [reflexivity |]. split; [split; [discriminate | lia] | discriminate].
  - split; [lia |]. destruct (_data self !! Z.to_nat i) as [r|] eqn:Hr.
    + apply lookup_lt_Some in Hr. split; [split; [discriminate | lia] | discriminate].
    + apply lookup_ge_None in Hr. split; [split; [lia | reflexivity] |].
      intros e [= <-]. reflexivity.
Qed.

Example negative_index_lines :
  option_map fst (lines_for_row wrap_unused Examples.squeezed (-3))
  = Some (Ok ["a    abcdefghij"; "               "]).
Proof. reflexivity. Qed.

(** ** Truncated values *)

(** C5, as amended.  In a truncated column of width [w] that is at
    least the length of the ellipsis, a value longer than [w] is
    rendered as one line of length exactly [w], made of a prefix of the
    value and the ellipsis; a value of length at most [w] is rendered
    unchanged as one line. *)
Theorem truncated_line (wrap : string -> Z -> result (list string))
    (self : Table) (val : string) (w : Z) :
  (Py.len (_dots self) <= w -> w < Py.len val ->
     exists pre rest,
       val = pre +:+ rest
       /\ format_value wrap self val w TRUNCATED = Ok [pre +:+ _dots self]
       /\ Py.len (pre +:+ _dots self) = w)
  /\ (Py.len val <= w -> format_value wrap self val w TRUNCATED = Ok [val]).
Proof.
  split.
  - intros Hd Hw. unfold format_value.
    destruct (Z.ltb_spec w (Py.len val)) as [_|]; [| lia].
    set (k := w - Py.len (_dots self)).
    pose proof (len_nonneg (_dots self)) as Hdots.
    assert (0 <= k <= Py.len val) as Hk by (unfold k; lia).
    destruct (str_take_prefix (Z.to_nat k) val) as [rest Hrest].
    exists (Py.slice_to val k), rest.
    assert (Py.slice_to val k = Py.str_take (Z.to_nat k) val) as Hs.
    { unfold Py.slice_to. destruct (Z.ltb_spec k 0); [lia | reflexivity]. }
    split; [rewrite Hs; exact Hrest |]. split; [reflexivity |].
    rewrite len_app, len_slice_to by exact Hk. unfold k. lia.
  - intros Hw. unfold format_value.
    destruct (Z.ltb_spec w (Py.len val)) as [|_]; [lia | reflexivity].
Qed.

Lemma truncated_line_witness :
  format_value wrap_unused Examples.one_truncated "Alexandria" 5 TRUNCATED
  = Ok ["Al..."]
  /\ format_value wrap_unused Examples.one_truncated "Ann" 5 TRUNCATED
     = Ok ["Ann"].
Proof.
  split.
  - destruct (truncated_line wrap_unused Examples.one_truncated "Alexandria" 5)
      as [H _].
    destruct H as (pre & rest & _ & H & _); [vm_compute; discriminate
                                            | reflexivity |].
    reflexivity.
  - apply (truncated_line wrap_unused Examples.one_truncated "Ann" 5).
    vm_compute. discriminate.
Defined.

(** C5 as stated fails for a width below the length of the ellipsis:
    with the widths set to [[2]], the value ["Alexandria"] is rendered
    as ["Alexandri..."], twelve characters long.  The slice bound
    [width - len(dots)] is then negative and counts from the end. *)
Lemma truncated_line_counterexample :
  format_value wrap_unused Examples.one_truncated "Alexandria" 2 TRUNCATED
  = Ok ["Alexandri..."]
  /\ Py.len "Alexandri..." = 12
  /\ lines_for_row wrap_unused
       (set_column_widths Examples.one_truncated [2]) 0
     = Some (Ok ["Alexandri..."],
             set_column_widths Examples.one_truncated [2]).
Proof. repeat split; reflexivity. Qed.

(** ** Segments and widths *)

(** C6, as amended.  The rows of a rendered row are one per line of the
    longest formatted value, followed for the header by the underline
    row.  On line [k] the segment of column [j] is the text of the
    column on that line, that is line [k] of the formatted value of the
    column's value (the empty text where it has fewer lines), followed
    by spaces up to the width of the column, and never cut: its length
    is the larger of the width and the length of the text, so it is the
    width exactly when the text fits.  A segment of the underline is the
    underline character repeated over the width.  The lines returned are
    the segments joined with the column separator. *)
Theorem segment_lengths tc names data kw (T0 : Table) (ws0 : list Z)
    (wrap : string -> Z -> result (list string)) (i : Z)
    (rows : list (list string)) (T' : Table) :
  __init__ tc names data kw = Ok T0 ->
  segments_for_row wrap (set_column_widths T0 ws0) i = Some (Ok rows, T') ->
  lines_for_row wrap (set_column_widths T0 ws0) i
  = Some (Ok (map (Py.join (_col_sep T')) rows), T')
  /\ exists values cols body,
       values_for_row (set_column_widths T0 ws0) i = Ok values
       /\ formatted_columns wrap T' values (_column_widths T') = Ok cols
       /\ (forall j col,
             cols !! j = Some col ->
             exists v w f,
               values !! j = Some v
               /\ _column_widths T' !! j = Some w
               /\ _format_spec T' !! j = Some f
               /\ format_value wrap T' v w f = Ok col)
       /\ rows
          = body ++ (if is_header i
                     then [underlines T' (_column_widths T')] else [])
       /\ length body = Py.longest cols
       /\ (forall k row,
             body !! k = Some row ->
             length row
             = Nat.min (length cols) (length (_column_widths T'))
             /\ forall j seg,
                  row !! j = Some seg ->
                  exists w,
                    _column_widths T' !! j = Some w
                    /\ seg = column_text cols k j
                             +:+ Py.str_mul " "
                                   (w - Py.len (column_text cols k j))
                    /\ Py.len seg = Z.max w (Py.len (column_text cols k j)))
       /\ (forall j seg,
             underlines T' (_column_widths T') !! j = Some seg ->
             exists w,
               _column_widths T' !! j = Some w
               /\ seg = Py.str_mul (_head_underline T') w
               /\ Py.len seg = Z.max 0 w).
Proof.
  intros Hinit Hseg. apply init_constructed in Hinit as (C & _).
  apply (constructed_set_column_widths _ ws0) in C.
  set (self := set_column_widths T0 ws0) in *.
  unfold segments_for_row in Hseg. unfold lines_for_row.
  destruct (values_for_row self i) as [values|]; [| discriminate].
  destruct (column_widths self) as [[[widths|e] self1]|] eqn:Hcw;
    try discriminate.
  injection Hseg as Hseg <-.
  destruct (column_widths_state _ _ _ Hcw) as [ws Hself1].
  apply column_widths_cached in Hcw as [Hw _].
  split; [rewrite lines_of_segments, Hseg; reflexivity |].
  rewrite Hw. unfold segments_of in Hseg.
  apply bind_Ok in Hseg as (cols & Hcols & Hseg).
  apply bind_Ok in Hseg as (body & Hbody & Hrows).
  exists values, cols, body. split; [reflexivity |].
  split; [exact Hcols |].
  apply mapM_Forall2 in Hcols, Hbody.
  split; [| split; [| split; [| split]]].
  - intros j col Hj.
    destruct (Forall2_lookup_r _ _ _ _ _ Hcols Hj) as ([v [w f]] & Hz & Hf).
    apply lookup_zip_Some in Hz as [Hv Hz].
    apply lookup_zip_Some in Hz as [Hwj Hfj].
    exists v, w, f. auto.
  - destruct (is_header i); injection Hrows as <-;
      [reflexivity | rewrite app_nil_r; reflexivity].
  - rewrite <- (Forall2_length _ _ _ Hbody). unfold Py.zip_longest.
    rewrite length_map, length_seq. reflexivity.
  - intros k row Hk.
    destruct (Forall2_lookup_r _ _ _ _ _ Hbody Hk) as (line & Hline & Hjust).
    unfold Py.zip_longest in Hline. rewrite map_fmap in Hline.
    apply list_lookup_fmap_Some in Hline as (k' & -> & Hk').
    apply lookup_seq in Hk' as [-> _]. simpl in Hjust.
    split.
    + unfold justified in Hjust. apply mapM_length in Hjust.
      rewrite Hjust, length_zip, length_map. reflexivity.
    + intros j seg Hj.
      destruct (justified_lookup _ _ _ _ _ Hjust Hj) as (v & w & Hv & Hwj & Hf).
      apply format_ljust_Ok in Hf as (_ & Hs & Hl).
      rewrite map_fmap in Hv.
      apply list_lookup_fmap_Some in Hv as (col & -> & Hcol).
      exists w. unfold column_text. rewrite Hcol. auto.
  - intros j seg Hj. apply underlines_lookup in Hj as (w & Hwj & ->).
    exists w. split; [exact Hwj |]. split; [reflexivity |].
    assert (constructed self1) as C1
      by (rewrite Hself1; apply constructed_set_column_widths, C).
    rewrite len_str_mul. unfold Py.len at 1.
    rewrite (underline_char _ C1). lia.
Qed.

Lemma segment_lengths_witness :
  segments_for_row wrap_unused Examples.people (-1)
  = Some (Ok [["ID"; "Name     "]; ["  "; "         "]],
          set_column_widths Examples.people [2; 9])
  /\ lines_for_row wrap_unused Examples.people (-1)
     = Some (Ok ["ID Name     "; "            "],
             set_column_widths Examples.people [2; 9])
  /\ exists values cols body,
       values_for_row Examples.people (-1) = Ok values
       /\ formatted_columns wrap_unused
            (set_column_widths Examples.people [2; 9]) values [2; 9]
          = Ok cols
       /\ [["ID"; "Name     "]; ["  "; "         "]]
          = body ++ [underlines (set_column_widths Examples.people [2; 9])
                       [2; 9]]
       /\ length body = Py.longest cols
       /\ forall k row,
            body !! k = Some row ->
            length row = Nat.min (length cols) 2
            /\ forall j seg,
                 row !! j = Some seg ->
                 exists w,
                   [2; 9] !! j = Some w
                   /\ seg = column_text cols k j
                            +:+ Py.str_mul " "
                                  (w - Py.len (column_text cols k j))
                   /\ Py.len seg = Z.max w (Py.len (column_text cols k j)).
Proof.
  assert (segments_for_row wrap_unused (set_column_widths Examples.people []) (-1)
          = Some (Ok [["ID"; "Name     "]; ["  "; "         "]],
                  set_column_widths Examples.people [2; 9])) as Hseg
    by reflexivity.
  destruct (segment_lengths 100 ["ID"; "Name"]
              [["1"; "Ann"]; ["2"; "Alexandra"]] no_kwargs
              Examples.people [] wrap_unused (-1) _ _ eq_refl Hseg)
    as (Hlines & values & cols & body & Hv & Hcols & _ & Hrows & Hlen
        & Hbody & _).
  split; [exact Hseg |]. split; [exact Hlines |].
  exists values, cols, body.
  split; [exact Hv |]. split; [exact Hcols |]. split; [exact Hrows |].
  split; [exact Hlen | exact Hbody].
Defined.

(** C6 as stated fails where a text is longer than the width of its
    column.  In [Table(["a", "abcdefghij"], [["hello", "x"]],
    format_str="pp", max_width=15)] with the widths set to [[2; 10]],
    the segment of the preformatted value ["hello"] is five characters
    long; with the widths left to the resolution, the loop takes one
    character from the first column, whose width is then [4], and the
    segment is five characters long as well. *)
Lemma segment_lengths_counterexample :
  __init__ 100 ["a"; "abcdefghij"] [["hello"; "x"]]
    (Examples.kw (Some "pp") None (Some 15)) = Ok Examples.squeezed
  /\ segments_for_row wrap_unused
       (set_column_widths Examples.squeezed [2; 10]) 0
     = Some (Ok [["hello"; "x         "]],
             set_column_widths Examples.squeezed [2; 10])
  /\ column_widths Examples.squeezed
     = Some (Ok [4; 10], set_column_widths Examples.squeezed [4; 10])
  /\ segments_for_row wrap_unused Examples.squeezed 0
     = Some (Ok [["hello"; "x         "]],
             set_column_widths Examples.squeezed [4; 10])
  /\ Py.len "hello" = 5.
Proof. repeat split; reflexivity. Qed.


(** ** Nominal widths *)

(** C7, as amended.  The nominal width of a column is the maximum of
    the lengths of its header and of its values when the column is
    wrapped or truncated; when it is preformatted, it is the maximum of
    the lengths of the segments obtained by splitting the header and
    every value on the preformat separator.  It is the width the
    specification words whenever the column is not preformatted or its
    header does not contain the separator. *)
Theorem nominal_width_of_column tc names data kw (T : Table) (j : nat)
    (h : string) (f : FormatSpec) :
  __init__ tc names data kw = Ok T ->
  names !! j = Some h ->
  _format_spec T !! j = Some f ->
  exists w,
    nominal_widths T !! j = Some w
    /\ (if decide (f = PREFORMATTED) then
          exists segs,
            mapM (fun v => Py.split v (_preformat_sep T))
                 (h :: column_values data j) = Ok segs
            /\ is_max w (map Py.len (concat segs))
        else is_max w (map Py.len (h :: column_values data j)))
    /\ (f <> PREFORMATTED \/ Py.split h (_preformat_sep T) = Ok [h] ->
        specified_nominal_width T f h (column_values data j) = Ok w).
Proof.
  intros Hinit Hh Hf. apply init_constructed in Hinit as (C & _ & <- & <-).
  destruct (nominal_lookup T j h f C Hh Hf) as (w & Hw & Hp).
  exists w. split; [exact Hw |].
  unfold preliminary_width in Hp. unfold specified_nominal_width.
  destruct (decide (f = PREFORMATTED)) as [->|Hne].
  - apply bind_Ok in Hp as (segs & Hsegs & Hmax). split.
    + exists segs. split; [exact Hsegs | apply max_spec, Hmax].
    + intros [Hne | Hsplit]; [contradiction |].
      simpl in Hsegs. rewrite Hsplit in Hsegs.
      apply bind_Ok in Hsegs as (l0 & [= <-] & Hsegs).
      apply bind_Ok in Hsegs as (segs' & Hsegs' & [= <-]).
      rewrite Hsegs'. exact Hmax.
  - split; [apply max_spec, Hp |]. intros _. exact Hp.
Qed.

Lemma nominal_width_of_column_witness :
  exists w,
    nominal_widths Examples.people !! 1%nat = Some w
    /\ is_max w (map Py.len ["Name"; "Ann"; "Alexandra"])
    /\ specified_nominal_width Examples.people WRAPPED "Name"
         ["Ann"; "Alexandra"] = Ok w.
Proof.
  destruct (nominal_width_of_column 100 ["ID"; "Name"]
              [["1"; "Ann"]; ["2"; "Alexandra"]] no_kwargs
              Examples.people 1 "Name" WRAPPED eq_refl eq_refl eq_refl)
    as (w & Hw & Hmax & Hspec).
  exists w. split; [exact Hw |]. split; [exact Hmax |].
  apply Hspec. left. discriminate.
Defined.

(** C7 as stated fails for a preformatted column whose header contains
    the preformat separator: the header is split like the values.  In
    [Table(["a, b"], [["x"]], format_str="p")] the nominal width is [1],
    not the length [4] of the header. *)
Lemma nominal_width_counterexample :
  __init__ 100 ["a, b"] [["x"]] (Examples.kw (Some "p") None None)
  = Ok Examples.split_header
  /\ nominal_widths Examples.split_header = [1]
  /\ column_widths Examples.split_header
     = Some (Ok [1], set_column_widths Examples.split_header [1])
  /\ specified_nominal_width Examples.split_header PREFORMATTED "a, b" ["x"]
     = Ok 4.
Proof. repeat split; reflexivity. Qed.

(** ** Tables that fit *)

Lemma sorted_nonempty (widths : list Z) :
  widths <> [] ->
  exists i w rest, Py.sorted_desc (Py.enumerate widths) = (i, w) :: rest.
Proof.
  intros Hne. destruct (Py.sorted_desc (Py.enumerate widths)) as [|[i w] rest] eqn:Hs.
  - pose proof (sorted_desc_perm (Py.enumerate widths)) as Hp.
    rewrite Hs in Hp. apply Permutation_nil_l in Hp.
    unfold Py.enumerate in Hp. destruct widths; [contradiction | discriminate].
  - eauto.
Qed.

Lemma last_lookup_synced {A B} (l : list A) (k : list B) :
  length l = length k -> last l = l !! pred (length k).
Proof. intros <-. apply last_lookup. Qed.

(** C1, as amended.  For a table with at least one column, when the
    total nominal width plus the separator length minus one is at most
    the maximal width -- for a separator of one character: when the
    total nominal width is at most the maximal width -- and neither the
    last column nor the widest column (the leftmost of the widest) is
    truncated, the resolved widths are the nominal widths. *)
Theorem nominal_widths_kept tc names data kw (T : Table) :
  __init__ tc names data kw = Ok T ->
  names <> [] ->
  total_width T (nominal_widths T) + (Py.len (_col_sep T) - 1) <= _max_width T ->
  last (_format_spec T) <> Some TRUNCATED ->
  (forall i w,
      head (Py.sorted_desc (Py.enumerate (nominal_widths T))) = Some (i, w) ->
      _format_spec T !! i <> Some TRUNCATED) ->
  column_widths T
  = Some (Ok (nominal_widths T), set_column_widths T (nominal_widths T)).
Proof.
  intros Hinit Hne Htotal Hlast Hhead.
  apply init_constructed in Hinit as (C & Hfresh & <- & _).
  rewrite (column_widths_fresh T C Hfresh).
  set (nominal := nominal_widths T) in *.
  set (self := set_column_widths T nominal).
  pose proof (nominal_length T C) as Hlen. fold nominal in Hlen.
  assert (synced self nominal) as Hs by (apply synced_nominal; assumption).
  assert (nominal <> []) as Hnn.
  { intros Hnil. rewrite Hnil in Hlen. destruct (_column_names T);
      [contradiction | discriminate]. }
  assert (is_Some (nominal !! pred (length nominal))) as [lw Hlw].
  { apply lookup_lt_is_Some_2. destruct nominal; [contradiction | simpl; lia]. }
  (* the last column passes the check at its nominal width *)
  assert (wide_at self (pred (length nominal)) lw = Ok true) as Hwl.
  { assert (is_Some (_format_spec T !! pred (length nominal))) as [f Hf].
    { apply lookup_lt_is_Some_2. rewrite (format_length _ C), <- Hlen.
      destruct nominal; [contradiction | simpl; lia]. }
    apply (wide_at_nominal T _ lw f C Hlw Hf). intros ->. apply Hlast.
    rewrite (last_lookup_synced _ nominal), Hf; [reflexivity |].
    rewrite (format_length _ C). symmetry. exact Hlen. }
  (* the sweep stops at its first entry *)
  destruct (sorted_nonempty nominal Hnn) as (i & w & rest & Hsorted).
  assert (wide_at self i w = Ok true) as Hwi.
  { assert (nominal !! i = Some w) as Hi
      by (apply elem_of_sorted; rewrite Hsorted; apply list_elem_of_here).
    assert (is_Some (_format_spec T !! i)) as [f Hf].
    { apply lookup_lt_is_Some_2. apply lookup_lt_Some in Hi.
      rewrite (format_length _ C), <- Hlen. exact Hi. }
    apply (wide_at_nominal T i w f C Hi Hf). intros ->.
    apply (Hhead i w); [rewrite Hsorted; reflexivity | exact Hf]. }
  assert (loop_test self nominal = Ok (Z.of_nat i, false)) as Htest.
  { rewrite (loop_test_synced _ _ Hs). unfold next_reducable_column_idx.
    rewrite Hsorted, sweep_cons, Hwi. unfold_result.
    destruct (Z.leb_spec 0 (Z.of_nat i)) as [_|]; [| lia].
    rewrite (proj2 (getitem_last_Ok _ _) Hlw), Hwl. reflexivity. }
  unfold _redistribute_widths. change (_column_widths self) with nominal.
  rewrite (proj2 (getitem_last_Ok _ _) Hlw).
  change (_total_width self) with (total_width T nominal).
  change (_max_width self) with (_max_width T).
  change (_col_sep self) with (_col_sep T).
  rewrite Z.min_l by lia. rewrite (list_insert_id _ _ _ Hlw).
  unfold loop_fuel. simpl. rewrite Htest. reflexivity.
Qed.

Lemma nominal_widths_kept_witness :
  column_widths Examples.people
  = Some (Ok [2; 9], set_column_widths Examples.people [2; 9]).
Proof.
  apply (nominal_widths_kept 100 ["ID"; "Name"]
           [["1"; "Ann"]; ["2"; "Alexandra"]] no_kwargs Examples.people).
  - reflexivity.
  - discriminate.
  - vm_compute. discriminate.
  - discriminate.
  - intros i w. vm_compute. intros [= <- <-]. discriminate.
Defined.

(** C1 as stated fails for a separator of more than one character, and
    for a truncated last column.  With the two-character separator of
    [Table(["ab", "cd"], [["abcd", "cdef"]], col_sep="  ", max_width=10)]
    the total nominal width is [4 + 4 + 2 = 10], yet the last column is
    cut to [3].  With a truncated column no width is returned, and with
    no column at all the look-up of the last width raises. *)
Lemma nominal_widths_kept_counterexample :
  __init__ 100 ["ab"; "cd"] [["abcd"; "cdef"]]
    (Examples.kw None (Some "  ") (Some 10)) = Ok Examples.wide_separator
  /\ nominal_widths Examples.wide_separator = [4; 4]
  /\ total_width Examples.wide_separator [4; 4] = 10
  /\ column_widths Examples.wide_separator
     = Some (Ok [4; 3], set_column_widths Examples.wide_separator [4; 3])
  /\ __init__ 100 ["Name"] [["Alexandria"]] (Examples.kw (Some "t") None None)
     = Ok Examples.one_truncated
  /\ total_width Examples.one_truncated
       (nominal_widths Examples.one_truncated) = 10
  /\ column_widths Examples.one_truncated
     = Some (Raise TypeError, set_column_widths Examples.one_truncated [10])
  /\ __init__ 100 [] [] no_kwargs = Ok (Examples.table [] [] [] " " 100)
  /\ column_widths (Examples.table [] [] [] " " 100)
     = Some (Raise IndexError, Examples.table [] [] [] " " 100).
Proof. repeat split; reflexivity. Qed.

(** ** Termination *)

(** C3.  Width resolution terminates on every constructed table: the
    property returns a result (widths or an exception).  The loop halts
    from every list of widths within [loop_fuel] evaluations of its
    condition, and no greater budget changes its result.  It stops as
    soon as [next_reducable_column_idx] returns [-1], whatever the state
    of the last column, whose check is then not even evaluated. *)
Theorem redistribution_halts tc names data kw (T : Table) :
  __init__ tc names data kw = Ok T ->
  (exists r T', column_widths T = Some (r, T'))
  /\ (forall nominal widths,
        length nominal = length names ->
        length widths = length names ->
        exists r, forall fuel,
          (loop_fuel (set_column_widths T nominal) widths <= fuel)%nat ->
          redistribute_loop fuel (set_column_widths T nominal) widths = Some r)
  /\ (forall self widths fuel,
        next_reducable_column_idx self widths = Ok (-1) ->
        loop_test self widths = Ok (-1, false)
        /\ redistribute_loop (S fuel) self widths = Some (Ok widths)).
Proof.
  intros Hinit. apply init_constructed in Hinit as (C & Hfresh & <- & _).
  split; [| split].
  - rewrite (column_widths_fresh T C Hfresh). unfold _redistribute_widths.
    destruct (Py.getitem_last _) as [lw|e]; [| eauto].
    match goal with
    | |- context [redistribute_loop (loop_fuel ?s ?ws) ?s ?ws] =>
        destruct (redistribute_loop_enough s ws) as [r Hr]
    end.
    { apply synced_nominal; [exact C |]. rewrite length_insert.
      apply nominal_length, C. }
    rewrite (Hr _ (Nat.le_refl _)). destruct r; eauto.
  - intros nominal widths Hn Hw. apply redistribute_loop_enough.
    unfold synced. simpl. rewrite (format_length _ C). lia.
  - intros self widths fuel Hnext.
    assert (loop_test self widths = Ok (-1, false)) as Ht
      by (unfold loop_test; rewrite Hnext; reflexivity).
    split; [exact Ht |]. simpl. rewrite Ht. reflexivity.
Qed.

Lemma redistribution_halts_witness :
  (exists r T', column_widths Examples.too_narrow = Some (r, T'))
  /\ exists r, forall fuel,
       Nat.le
         (loop_fuel (set_column_widths Examples.too_narrow [10; 3]) [10; -6])
         fuel ->
       redistribute_loop fuel
         (set_column_widths Examples.too_narrow [10; 3]) [10; -6] = Some r.
Proof.
  destruct (redistribution_halts 100 ["0123456789"; "abc"]
              [["0123456789"; "abc"]] (Examples.kw (Some "pp") None (Some 5))
              Examples.too_narrow eq_refl) as (H1 & H2 & _).
  split; [exact H1 |]. apply H2; reflexivity.
Defined.

(** The loop stopped by the sentinel alone: in this table the last
    column never becomes wide enough; after one turn no column passes
    the check and the sweep returns [-1]. *)
Example sentinel_stops_loop :
  column_widths Examples.too_narrow
  = Some (Ok [9; -5], set_column_widths Examples.too_narrow [9; -5])
  /\ next_reducable_column_idx
       (set_column_widths Examples.too_narrow [10; 3]) [9; -5] = Ok (-1)
  /\ wide_at (set_column_widths Examples.too_narrow [10; 3]) 1 (-5) = Ok false.
Proof. repeat split; reflexivity. Qed.

(** ** A truncated last column *)

Lemma sweep_Raise (self : Table) (l : list (nat * Z)) (e : exn) :
  sweep self l = Raise e ->
  exists i w, (i, w) ∈ l /\ wide_at self i w = Raise e.
Proof.
  induction l as [|[i w] l IH]; [discriminate |].
  rewrite sweep_cons. destruct (wide_at self i w) as [[|]|e'] eqn:Hw.
  - discriminate.
  - intros H. destruct (IH H) as (i' & w' & Hin & Hw').
    exists i', w'. split; [apply list_elem_of_further, Hin | exact Hw'].
  - intros [= ->]. exists i, w. split; [apply list_elem_of_here | exact Hw].
Qed.

Lemma loop_test_truncated_last (self : Table) (widths : list Z) :
  synced self widths ->
  _format_spec self !! pred (length widths) = Some TRUNCATED ->
  loop_test self widths = Raise TypeError.
Proof.
  intros Hs Hf. pose proof Hs as (Hn & Hfl & Hc).
  pose proof (lookup_lt_Some _ _ _ Hf) as Hlt. rewrite Hfl in Hlt.
  destruct (lookup_lt_is_Some_2 widths _ Hlt) as [lw Hlw].
  assert (forall w, wide_at self (pred (length widths)) w = Raise TypeError) as Hwl.
  { intros w. apply wide_at_truncated; [exact Hf | |];
      apply lookup_lt_is_Some_2; lia. }
  rewrite (loop_test_synced _ _ Hs). unfold next_reducable_column_idx.
  destruct (sweep self _) as [z|e] eqn:Hsweep.
  - apply sweep_Ok in Hsweep as [[-> Hall] | (i & w & _ & -> & _)].
    + exfalso. apply elem_of_sorted in Hlw.
      apply (proj1 (Forall_forall _ _) Hall) in Hlw. simpl in Hlw.
      rewrite Hwl in Hlw. discriminate.
    + unfold_result. destruct (Z.leb_spec 0 (Z.of_nat i)) as [_|]; [| lia].
      rewrite (proj2 (getitem_last_Ok _ _) Hlw), Hwl. reflexivity.
  - apply sweep_Raise in Hsweep as (i & w & Hin & Hw).
    apply elem_of_sorted, lookup_lt_Some in Hin.
    destruct (wide_at_no_IndexError self widths i w Hs Hin) as [H | [b H]];
      rewrite H in Hw; [injection Hw as <-; reflexivity | discriminate].
Qed.

Lemma redistribute_loop_Raise (self : Table) (widths : list Z) (e : exn) :
  loop_test self widths = Raise e ->
  redistribute_loop (loop_fuel self widths) self widths = Some (Raise e).
Proof. intros H. unfold loop_fuel. simpl. rewrite H. reflexivity. Qed.

Lemma values_for_row_Ok (self : Table) (i : Z) :
  i < __len__ self -> exists values, values_for_row self i = Ok values.
Proof.
  intros Hi. unfold values_for_row, is_header, __len__ in *.
  destruct (Z.ltb_spec i 0); [eauto |].
  destruct (lookup_lt_is_Some_2 (_data self) (Z.to_nat i) ltac:(lia)) as [r Hr].
  exists r. apply getitem_Ok, Hr.
Qed.

(** C9, as amended.  On a freshly constructed table whose last column
    is truncated, the first computation of the column widths raises
    [TypeError], and so does a render of the header or of any existing
    row (a row index out of range raises [IndexError] before the widths
    are looked at).  The failed computation leaves the nominal widths in
    [self._column_widths]: read again, the property returns them. *)
Theorem truncated_last_column_raises tc names data kw (T : Table) :
  __init__ tc names data kw = Ok T ->
  last (_format_spec T) = Some TRUNCATED ->
  column_widths T
  = Some (Raise TypeError, set_column_widths T (nominal_widths T))
  /\ (forall wrap i,
        i < __len__ T ->
        lines_for_row wrap T i
        = Some (Raise TypeError, set_column_widths T (nominal_widths T)))
  /\ (forall wrap i,
        __len__ T <= i ->
        lines_for_row wrap T i = Some (Raise IndexError, T))
  /\ column_widths (set_column_widths T (nominal_widths T))
     = Some (Ok (nominal_widths T), set_column_widths T (nominal_widths T)).
Proof.
  intros Hinit Hlast. apply init_constructed in Hinit as (C & Hfresh & _).
  pose proof (nominal_length T C) as Hlen.
  pose proof (format_length _ C) as Hfl.
  assert (_format_spec T !! pred (length (nominal_widths T)) = Some TRUNCATED)
    as Hf by (rewrite <- Hlast, last_lookup; f_equal; lia).
  pose proof (lookup_lt_Some _ _ _ Hf) as Hlt.
  destruct (lookup_lt_is_Some_2 (nominal_widths T)
              (pred (length (nominal_widths T))) ltac:(lia)) as [lw Hlw].
  assert (column_widths T
          = Some (Raise TypeError, set_column_widths T (nominal_widths T)))
    as Hcw.
  { rewrite (column_widths_fresh T C Hfresh). unfold _redistribute_widths.
    change (_column_widths (set_column_widths T (nominal_widths T)))
      with (nominal_widths T).
    rewrite (proj2 (getitem_last_Ok _ _) Hlw).
    rewrite (redistribute_loop_Raise _ _ TypeError); [reflexivity |].
    apply loop_test_truncated_last.
    - apply synced_nominal; [exact C |]. rewrite length_insert. exact Hlen.
    - rewrite length_insert. exact Hf. }
  split; [exact Hcw |]. split; [| split].
  - intros wrap i Hi. destruct (values_for_row_Ok T i Hi) as [values Hv].
    unfold lines_for_row. rewrite Hv, Hcw. reflexivity.
  - intros wrap i Hi. unfold lines_for_row.
    rewrite (proj2 (proj1 (proj2 (values_for_row_bounds T i))) Hi). reflexivity.
  - unfold column_widths.
    change (_column_widths (set_column_widths T (nominal_widths T)))
      with (nominal_widths T).
    destruct (nominal_widths T); [discriminate | reflexivity].
Qed.

Lemma truncated_last_column_raises_witness :
  column_widths Examples.one_truncated
  = Some (Raise TypeError, set_column_widths Examples.one_truncated [10])
  /\ lines_for_row wrap_unused Examples.one_truncated (-1)
     = Some (Raise TypeError, set_column_widths Examples.one_truncated [10]).
Proof.
  destruct (truncated_last_column_raises 100 ["Name"] [["Alexandria"]]
              (Examples.kw (Some "t") None None) Examples.one_truncated
              eq_refl eq_refl) as (H1 & H2 & _).
  split; [exact H1 |]. apply H2. reflexivity.
Defined.

(** C9 as stated fails for the renders that follow the first: the
    failed computation has already appended the nominal widths to
    [self._column_widths], so the next read of the property finds them
    and the row is rendered. *)
Lemma truncated_last_column_counterexample :
  __init__ 100 ["Name"] [["Alexandria"]] (Examples.kw (Some "t") None None)
  = Ok Examples.one_truncated
  /\ lines_for_row wrap_unused Examples.one_truncated 0
     = Some (Raise TypeError, set_column_widths Examples.one_truncated [10])
  /\ lines_for_row wrap_unused
       (set_column_widths Examples.one_truncated [10]) 0
     = Some (Ok ["Alexandria"], set_column_widths Examples.one_truncated [10]).
Proof. repeat split; reflexivity. Qed.

(** ** Lower bounds of the resolved widths *)

Lemma resolved_fresh (T : Table) (ws : list Z) (T' : Table) :
  constructed T ->
  _column_widths T = [] ->
  column_widths T = Some (Ok ws, T') ->
  exists lw,
    last (nominal_widths T) = Some lw
    /\ redistribute_loop
         (loop_fuel (set_column_widths T (nominal_widths T))
            (<[pred (length (nominal_widths T))
               := naive_cut T (nominal_widths T) lw]> (nominal_widths T)))
         (set_column_widths T (nominal_widths T))
         (<[pred (length (nominal_widths T))
            := naive_cut T (nominal_widths T) lw]> (nominal_widths T))
       = Some (Ok ws).
Proof.
  intros C Hfresh. rewrite (column_widths_fresh T C Hfresh).
  unfold _redistribute_widths, Py.getitem_last.
  change (_column_widths (set_column_widths T (nominal_widths T)))
    with (nominal_widths T).
  destruct (last (nominal_widths T)) as [lw|]; [| discriminate].
  intros H. exists lw. split; [reflexivity |].
  match type of H with
  | match ?x with _ => _ end = _ => destruct x as [[ws'|e]|] eqn:Hloop
  end; try discriminate.
  injection H as -> _. exact Hloop.
Qed.





(** * Further properties of the module *)

(** ** The cache of the widths *)

Lemma set_column_widths_id (self : Table) (ws : list Z) :
  _column_widths self = ws -> set_column_widths self ws = self.
Proof. destruct self; simpl. intros ->. reflexivity. Qed.

(** X1.  A successful read of [column_widths] changes nothing of the
    instance but [self._column_widths], where it leaves the widths it
    returns; these are never the empty list, and every later read
    returns them again without touching the instance.  Widths set by
    hand to a list that is not empty are returned as they are. *)
Theorem widths_are_cached (self self' : Table) (ws : list Z) :
  column_widths self = Some (Ok ws, self') ->
  self' = set_column_widths self ws
  /\ ws <> []
  /\ column_widths self' = Some (Ok ws, self')
  /\ column_widths (set_column_widths self' ws) = Some (Ok ws, self').
Proof.
  intros H. destruct (column_widths_state _ _ _ H) as [ws0 Hs].
  destruct (column_widths_cached _ _ _ H) as [Hw Hagain].
  assert (self' = set_column_widths self ws) as Hself'.
  { rewrite Hs in Hw |- *. simpl in Hw. rewrite Hw. reflexivity. }
  assert (ws <> []) as Hne.
  { intros ->. unfold column_widths in Hagain. rewrite Hw in Hagain.
    unfold column_widths in H. destruct (_column_widths self) eqn:Hcw.
    - destruct (append_widths self _) as [[u|e] self1]; [| discriminate].
      destruct (_redistribute_widths self1) as [[ws'|e]|] eqn:Hr;
        try discriminate.
      injection H as -> _. apply redistribute_widths_length in Hr as [Hl Hn].
      destruct (_column_widths self1); [contradiction | discriminate].
    - injection H as Hnil _. discriminate. }
  repeat split; try assumption.
  rewrite (set_column_widths_id self' ws Hw). exact Hagain.
Qed.

Lemma widths_are_cached_witness :
  column_widths (set_column_widths Examples.people [2; 9])
  = Some (Ok [2; 9], set_column_widths Examples.people [2; 9]).
Proof.
  apply (widths_are_cached Examples.people
           (set_column_widths Examples.people [2; 9]) [2; 9]).
  reflexivity.
Defined.

(** ** What the loop conserves *)

Lemma sum_insert (l : list Z) (i : nat) (x w : Z) :
  l !! i = Some w -> Py.sum (<[i := x]> l) = Py.sum l - w + x.
Proof.
  revert i. induction l as [|y l IH]; intros i H; [discriminate |].
  destruct i as [|i]; simpl in *.
  - injection H as ->. lia.
  - rewrite (IH _ H). lia.
Qed.

Lemma wide_at_false (self : Table) (i : nat) (w : Z) :
  wide_at self i w = Ok false ->
  exists h f nom,
    _column_names self !! i = Some h
    /\ _format_spec self !! i = Some f
    /\ _column_widths self !! i = Some nom
    /\ ((f = WRAPPED /\ w < Py.len h) \/ (f = PREFORMATTED /\ w < nom)).
Proof.
  unfold wide_at. intros H.
  apply bind_Ok in H as (h & Hh & H). apply bind_Ok in H as (f & Hf & H).
  apply bind_Ok in H as (nom & Hn & H).
  apply getitem_Ok in Hh, Hf, Hn. exists h, f, nom.
  repeat (split; [assumption |]).
  destruct f; simpl in H.
  - right. split; [reflexivity |]. injection H as H. apply Z.leb_gt, H.
  - left. split; [reflexivity |]. injection H as H. apply Z.leb_gt, H.
  - discriminate.
Qed.

(** X2.  The loop moves characters between columns and loses none, so
    the total width of the resolved widths is the total nominal width
    when that is at most [max_width - (len(col_sep) - 1)], and exactly
    [max_width - (len(col_sep) - 1)] otherwise: the widths the property
    returns never add up to more than the maximal width. *)
Theorem resolved_total_width tc names data kw (T : Table)
    (ws : list Z) (T' : Table) :
  __init__ tc names data kw = Ok T ->
  column_widths T = Some (Ok ws, T') ->
  total_width T ws
  = Z.min (total_width T (nominal_widths T))
          (_max_width T - (Py.len (_col_sep T) - 1)).
Proof.
  intros Hinit Hcw. apply init_constructed in Hinit as (C & Hfresh & _).
  destruct (resolved_fresh T ws T' C Hfresh Hcw) as (lw & Hlast & Hloop).
  pose proof (nominal_length T C) as Hlen.
  rewrite last_lookup in Hlast.
  set (cut := naive_cut T (nominal_widths T) lw) in *.
  set (ws0 := <[pred (length (nominal_widths T)) := cut]> (nominal_widths T)) in *.
  assert (Py.sum ws = Py.sum ws0) as Hsum.
  { apply (redistribute_loop_invariant (fun l => Py.sum l = Py.sum ws0)
             (set_column_widths T (nominal_widths T)))
      with (fuel := loop_fuel (set_column_widths T (nominal_widths T)) ws0)
           (widths := ws0); [| | reflexivity | exact Hloop].
    - intros widths i w l _ HP Hlt Hi _ Hl _.
      rewrite (sum_insert _ _ _ l)
        by (rewrite list_lookup_insert_ne by lia; exact Hl).
      rewrite (sum_insert _ _ _ w) by exact Hi. lia.
    - apply synced_nominal; [exact C |]. unfold ws0.
      rewrite length_insert. exact Hlen. }
  assert (length ws = length (nominal_widths T)) as Hlws.
  { apply redistribute_loop_length in Hloop. unfold ws0 in Hloop.
    rewrite length_insert in Hloop. exact Hloop. }
  unfold total_width. rewrite Hsum, Hlws. unfold ws0.
  rewrite (sum_insert _ _ _ lw) by exact Hlast.
  unfold cut, naive_cut, total_width. lia.
Qed.

Lemma resolved_total_width_witness :
  total_width Examples.squeezed [4; 10] = Z.min 16 15.
Proof.
  exact (resolved_total_width 100 ["a"; "abcdefghij"] [["hello"; "x"]]
           (Examples.kw (Some "pp") None (Some 15)) Examples.squeezed
           [4; 10] (set_column_widths Examples.squeezed [4; 10])
           eq_refl eq_refl).
Defined.

(** X3.  When the property returns widths, the loop has stopped for one
    of its two reasons: the last column passes the check of
    [column_is_wide_enough], or no column at all passes it. *)
Theorem resolution_stops_when tc names data kw (T : Table)
    (ws : list Z) (T' : Table) :
  __init__ tc names data kw = Ok T ->
  column_widths T = Some (Ok ws, T') ->
  (exists lw,
      last ws = Some lw
      /\ wide_at (set_column_widths T (nominal_widths T))
                 (pred (length ws)) lw = Ok true)
  \/ (forall i w,
        ws !! i = Some w ->
        wide_at (set_column_widths T (nominal_widths T)) i w = Ok false).
Proof.
  intros Hinit Hcw. apply init_constructed in Hinit as (C & Hfresh & _).
  destruct (resolved_fresh T ws T' C Hfresh Hcw) as (lw & Hlast & Hloop).
  set (self := set_column_widths T (nominal_widths T)) in *.
  assert (length ws = length (_column_names T)) as Hlws.
  { apply redistribute_loop_length in Hloop. rewrite length_insert in Hloop.
    rewrite Hloop. apply nominal_length, C. }
  destruct (redistribute_loop_invariant (fun _ => True) self
              ltac:(auto) _ _ ws
              ltac:(apply synced_nominal;
                    [exact C | rewrite length_insert; apply nominal_length, C])
              I Hloop) as [_ [z Ht]].
  rewrite (loop_test_synced self ws (synced_nominal T ws C Hlws)) in Ht.
  apply bind_Ok in Ht as (z0 & Hz0 & Ht).
  destruct (Z.leb_spec 0 z0) as [Hpos|Hneg].
  - left. apply bind_Ok in Ht as (l & Hl & Ht).
    apply bind_Ok in Ht as (b & Hb & Ht). injection Ht as _ Hnb.
    destruct b; [| discriminate]. exists l. split; [| exact Hb].
    unfold Py.getitem_last in Hl. destruct (last ws); congruence.
  - right. unfold next_reducable_column_idx in Hz0.
    apply sweep_Ok in Hz0 as [[_ Hall] | (i & w & _ & -> & _)]; [| lia].
    intros i w Hi. apply elem_of_sorted in Hi.
    exact (proj1 (Forall_forall _ _) Hall _ Hi).
Qed.

Lemma resolution_stops_when_witness :
  (exists lw,
      last [9; -5] = Some lw
      /\ wide_at (set_column_widths Examples.too_narrow
                    (nominal_widths Examples.too_narrow))
                 (pred (length [9; -5])) lw = Ok true)
  \/ (forall i w,
        [9; -5] !! i = Some w ->
        wide_at (set_column_widths Examples.too_narrow
                   (nominal_widths Examples.too_narrow)) i w = Ok false).
Proof.
  exact (resolution_stops_when 100 ["0123456789"; "abc"]
           [["0123456789"; "abc"]] (Examples.kw (Some "pp") None (Some 5))
           Examples.too_narrow [9; -5]
           (set_column_widths Examples.too_narrow [9; -5]) eq_refl eq_refl).
Defined.

(** X4.  Resolution never widens a column: every resolved width is at
    most the nominal width of its column. *)
Theorem resolved_at_most_nominal tc names data kw (T : Table)
    (ws : list Z) (T' : Table) (j : nat) (w nom : Z) :
  __init__ tc names data kw = Ok T ->
  column_widths T = Some (Ok ws, T') ->
  ws !! j = Some w ->
  nominal_widths T !! j = Some nom ->
  w <= nom.
Proof.
  intros Hinit Hcw. apply init_constructed in Hinit as (C & Hfresh & _).
  destruct (resolved_fresh T ws T' C Hfresh Hcw) as (lw & Hlast & Hloop).
  rewrite last_lookup in Hlast.
  set (self := set_column_widths T (nominal_widths T)) in *.
  revert j w nom.
  refine (proj1 (redistribute_loop_invariant
                   (fun l => forall j w nom,
                        l !! j = Some w ->
                        nominal_widths T !! j = Some nom -> w <= nom)
                   self _ _ _ ws _ _ Hloop)).
  - intros widths i w l Hs HP Hlt Hi Hw Hl Hwl j w' nom Hj Hnom.
    apply list_lookup_insert_Some in Hj as [(<- & <- & Hj) | (Hne & Hj)].
    + apply wide_at_false in Hwl as (h & f & nom' & Hh & Hf & Hn' & Hcase).
      change (_column_widths self) with (nominal_widths T) in Hn'.
      rewrite Hnom in Hn'. injection Hn' as <-.
      destruct Hcase as [[-> Hlt'] | [-> Hlt']]; [| lia].
      pose proof (nominal_ge_header T _ h WRAPPED nom C Hh Hf
                    ltac:(discriminate) Hnom). lia.
    + apply list_lookup_insert_Some in Hj as [(<- & <- & Hj) | (Hne' & Hj)].
      * specialize (HP _ _ _ Hi Hnom). lia.
      * exact (HP _ _ _ Hj Hnom).
  - apply synced_nominal; [exact C |]. rewrite length_insert.
    apply nominal_length, C.
  - intros j w nom Hj Hnom.
    apply list_lookup_insert_Some in Hj as [(<- & <- & Hj) | (Hne & Hj)].
    + rewrite Hlast in Hnom. injection Hnom as <-. unfold naive_cut. lia.
    + rewrite Hnom in Hj. injection Hj as <-. lia.
Qed.

Lemma resolved_at_most_nominal_witness : 4 <= 5.
Proof.
  exact (resolved_at_most_nominal 100 ["a"; "abcdefghij"] [["hello"; "x"]]
           (Examples.kw (Some "pp") None (Some 15)) Examples.squeezed
           [4; 10] (set_column_widths Examples.squeezed [4; 10]) 0 4 5
           eq_refl eq_refl eq_refl eq_refl).
Defined.

(** ** Truncated columns under automatic widths *)

Lemma resolved_not_truncated_last (T : Table) (ws : list Z) (T' : Table) :
  constructed T ->
  _column_widths T = [] ->
  column_widths T = Some (Ok ws, T') ->
  last (_format_spec T) <> Some TRUNCATED.
Proof.
  intros C Hfresh Hcw Hlast.
  destruct (resolved_fresh T ws T' C Hfresh Hcw) as (lw & _ & Hloop).
  set (self := set_column_widths T (nominal_widths T)) in *.
  pose proof (nominal_length T C) as Hlen.
  assert (length ws = length (_column_names T)) as Hlws.
  { apply redistribute_loop_length in Hloop. rewrite length_insert in Hloop.
    lia. }
  destruct (redistribute_loop_invariant (fun _ => True) self
              ltac:(auto) _ _ ws
              ltac:(apply synced_nominal;
                    [exact C | rewrite length_insert; exact Hlen])
              I Hloop) as [_ [z Ht]].
  rewrite (loop_test_truncated_last self ws) in Ht; [discriminate | |].
  - apply synced_nominal; assumption.
  - rewrite <- Hlast, last_lookup. change (_format_spec self) with (_format_spec T).
    f_equal. rewrite (format_length _ C). lia.
Qed.

Lemma resolved_truncated_kept (T : Table) (ws : list Z) (T' : Table) (j : nat) :
  constructed T ->
  _column_widths T = [] ->
  column_widths T = Some (Ok ws, T') ->
  _format_spec T !! j = Some TRUNCATED ->
  ws !! j = nominal_widths T !! j.
Proof.
  intros C Hfresh Hcw Hf.
  pose proof (resolved_not_truncated_last T ws T' C Hfresh Hcw) as Hnl.
  destruct (resolved_fresh T ws T' C Hfresh Hcw) as (lw & _ & Hloop).
  set (self := set_column_widths T (nominal_widths T)) in *.
  pose proof (nominal_length T C) as Hlen.
  assert (j <> pred (length (nominal_widths T))) as Hj.
  { intros ->. apply Hnl. rewrite <- Hf, last_lookup. f_equal.
    rewrite (format_length _ C). lia. }
  refine (proj2 (proj1 (redistribute_loop_invariant
                   (fun l => length l = length (nominal_widths T)
                             /\ l !! j = nominal_widths T !! j)
                   self _ _ _ ws _ _ Hloop))).
  - intros widths i w l Hs [Hl HP] Hlt Hi Hw Hll _. split.
    { rewrite !length_insert. exact Hl. }
    rewrite list_lookup_insert_ne by (rewrite Hl; congruence).
    rewrite list_lookup_insert_ne; [exact HP |].
    intros ->. apply wide_at_true in Hw as (h & f & nom & _ & Hf' & _ & Hcase).
    change (_format_spec self) with (_format_spec T) in Hf'.
    rewrite Hf in Hf'. injection Hf' as <-.
    destruct Hcase as [[? _] | [? _]]; discriminate.
  - apply synced_nominal; [exact C |]. rewrite length_insert. exact Hlen.
  - split; [apply length_insert |]. apply list_lookup_insert_ne. congruence.
Qed.

(** X5.  With widths that the resolution computed, a truncated column
    never truncates: it has kept its nominal width, so its header and
    every one of its values are rendered unchanged.  Values are cut only
    under widths set by hand. *)
Theorem automatic_widths_never_truncate tc names data kw (T : Table)
    (ws : list Z) (T' : Table) (j : nat) (h : string) (w : Z)
    (wrap : string -> Z -> result (list string)) (v : string) :
  __init__ tc names data kw = Ok T ->
  column_widths T = Some (Ok ws, T') ->
  _format_spec T !! j = Some TRUNCATED ->
  names !! j = Some h ->
  ws !! j = Some w ->
  v ∈ h :: column_values data j ->
  nominal_widths T !! j = Some w
  /\ format_value wrap T' v w TRUNCATED = Ok [v].
Proof.
  intros Hinit Hcw Hf Hh Hw Hv.
  apply init_constructed in Hinit as (C & Hfresh & <- & <-).
  pose proof (resolved_truncated_kept T ws T' j C Hfresh Hcw Hf) as Hkept.
  rewrite Hw in Hkept. symmetry in Hkept. split; [exact Hkept |].
  destruct (nominal_lookup T j h TRUNCATED C Hh Hf) as (w' & Hw' & Hp).
  rewrite Hkept in Hw'. injection Hw' as <-.
  unfold preliminary_width in Hp.
  destruct (decide (TRUNCATED = PREFORMATTED)); [discriminate |].
  apply max_spec in Hp as [_ Hall].
  assert (Py.len v <= w) as Hle.
  { apply (proj1 (Forall_forall _ _) Hall). rewrite map_fmap.
    apply list_elem_of_fmap. exists v. auto. }
  unfold format_value. destruct (Z.ltb_spec w (Py.len v)); [lia | reflexivity].
Qed.

Lemma automatic_widths_never_truncate_witness :
  nominal_widths (Examples.table ["abcdef"; "t"; "z"]
                    [["abcdefgh"; "tttt"; "z"]]
                    [WRAPPED; TRUNCATED; WRAPPED] " " 100) !! 1%nat = Some 4
  /\ format_value wrap_unused
       (set_column_widths
          (Examples.table ["abcdef"; "t"; "z"] [["abcdefgh"; "tttt"; "z"]]
             [WRAPPED; TRUNCATED; WRAPPED] " " 100) [8; 4; 1])
       "tttt" 4 TRUNCATED = Ok ["tttt"].
Proof.
  apply (automatic_widths_never_truncate 100 ["abcdef"; "t"; "z"]
           [["abcdefgh"; "tttt"; "z"]] (Examples.kw (Some "wtw") None None)
           _ [8; 4; 1] _ 1 "t" 4 wrap_unused "tttt"
           eq_refl eq_refl eq_refl eq_refl eq_refl).
  apply list_elem_of_further, list_elem_of_here.
Defined.

(** ** Resolution without truncated columns *)

Lemma wide_at_Raise (self : Table) (widths : list Z) (i : nat) (w : Z) (e : exn) :
  synced self widths ->
  (i < length widths)%nat ->
  wide_at self i w = Raise e ->
  _format_spec self !! i = Some TRUNCATED.
Proof.
  intros (Hn & Hf & Hc) Hlt.
  destruct (lookup_lt_is_Some_2 (_column_names self) i ltac:(lia)) as [h Hh].
  destruct (lookup_lt_is_Some_2 (_format_spec self) i ltac:(lia)) as [f Hfi].
  destruct (lookup_lt_is_Some_2 (_column_widths self) i ltac:(lia)) as [nom Hnom].
  unfold wide_at, Py.getitem. rewrite Hh, Hfi, Hnom. unfold_result.
  destruct f; simpl; try discriminate. reflexivity.
Qed.

Lemma loop_test_Raise (self : Table) (widths : list Z) (e : exn) :
  synced self widths ->
  widths <> [] ->
  loop_test self widths = Raise e ->
  TRUNCATED ∈ _format_spec self.
Proof.
  intros Hs Hne Ht. rewrite (loop_test_synced _ _ Hs) in Ht.
  unfold next_reducable_column_idx in Ht.
  destruct (sweep self _) as [z|e'] eqn:Hsweep.
  - unfold_result. destruct (0 <=? z); [| discriminate].
    assert (is_Some (widths !! pred (length widths))) as [l Hl].
    { apply lookup_lt_is_Some_2. destruct widths; [contradiction | simpl; lia]. }
    rewrite (proj2 (getitem_last_Ok _ _) Hl) in Ht.
    destruct (wide_at self (pred (length widths)) l) as [b|e''] eqn:Hw;
      [discriminate |].
    apply list_elem_of_lookup. exists (pred (length widths)).
    apply (wide_at_Raise self widths _ l e'' Hs); [| exact Hw].
    apply lookup_lt_Some in Hl. exact Hl.
  - apply sweep_Raise in Hsweep as (i & w & Hin & Hw).
    apply elem_of_sorted, lookup_lt_Some in Hin.
    apply list_elem_of_lookup. exists i.
    exact (wide_at_Raise self widths i w e' Hs Hin Hw).
Qed.

Lemma redistribute_loop_Raise_inv (self : Table) (fuel : nat)
    (widths : list Z) (e : exn) :
  synced self widths ->
  widths <> [] ->
  redistribute_loop fuel self widths = Some (Raise e) ->
  TRUNCATED ∈ _format_spec self.
Proof.
  revert widths. induction fuel as [|fuel IH]; intros widths Hs Hne H;
    [discriminate |].
  simpl in H. destruct (loop_test self widths) as [[z [|]]|e'] eqn:Ht.
  - destruct (loop_step _ _ _ Hs Ht)
      as (i & w & l & -> & Hlt & Hi & Hw & Hl & _ & Hbody).
    rewrite Hbody in H. eapply IH; [| | exact H].
    + apply synced_insert, synced_insert, Hs.
    + intros Hnil. apply (f_equal length) in Hnil.
      rewrite !length_insert in Hnil.
      destruct widths; [contradiction | discriminate].
  - discriminate.
  - exact (loop_test_Raise self widths e' Hs Hne Ht).
Qed.

(** X6.  A table with at least one column and no truncated column
    always gets its widths: the computation returns a list of widths and
    caches it, it never raises.  The tables built by the callers of the
    repository, whose format strings are ["wwwpp"], ["pppp"] and
    ["pp"], are of this kind. *)
Theorem resolution_succeeds_without_truncated tc names data kw (T : Table) :
  __init__ tc names data kw = Ok T ->
  names <> [] ->
  TRUNCATED ∉ _format_spec T ->
  exists ws, column_widths T = Some (Ok ws, set_column_widths T ws).
Proof.
  intros Hinit Hne Hnt. apply init_constructed in Hinit as (C & Hfresh & <- & _).
  rewrite (column_widths_fresh T C Hfresh).
  pose proof (nominal_length T C) as Hlen.
  set (self := set_column_widths T (nominal_widths T)).
  assert (is_Some (nominal_widths T !! pred (length (nominal_widths T))))
    as [lw Hlw].
  { apply lookup_lt_is_Some_2. rewrite Hlen.
    destruct (_column_names T); [contradiction | simpl; lia]. }
  unfold _redistribute_widths.
  change (_column_widths self) with (nominal_widths T).
  rewrite (proj2 (getitem_last_Ok _ _) Hlw).
  match goal with
  | |- context [redistribute_loop (loop_fuel self ?ws0) self ?ws0] =>
      set (widths := ws0)
  end.
  assert (synced self widths) as Hs
    by (apply synced_nominal; [exact C | unfold widths; rewrite length_insert; exact Hlen]).
  destruct (redistribute_loop_enough self widths Hs) as [r Hr].
  specialize (Hr _ (Nat.le_refl _)). rewrite Hr.
  destruct r as [ws|e]; [eauto |].
  exfalso. apply Hnt.
  apply (redistribute_loop_Raise_inv self (loop_fuel self widths) widths e Hs);
    [| exact Hr].
  intros Hnil. apply (f_equal length) in Hnil. unfold widths in Hnil.
  rewrite length_insert in Hnil. apply lookup_lt_Some in Hlw.
  rewrite Hnil in Hlw. simpl in Hlw. lia.
Qed.

Lemma resolution_succeeds_without_truncated_witness :
  exists ws,
    column_widths Examples.squeezed
    = Some (Ok ws, set_column_widths Examples.squeezed ws).
Proof.
  apply (resolution_succeeds_without_truncated 100 ["a"; "abcdefghij"]
           [["hello"; "x"]] (Examples.kw (Some "pp") None (Some 15))
           Examples.squeezed eq_refl).
  - discriminate.
  - simpl. intros H.
    apply elem_of_cons in H as [H|H]; [discriminate |].
    apply elem_of_cons in H as [H|H]; [discriminate |].
    inversion H.
Defined.

(** ** What the initializer returns *)

Lemma format_specs_of_chars (chars : list ascii) :
  forallb (fun chr =>
             bool_decide (chr ∈ map FormatSpec_value
                            [PREFORMATTED; WRAPPED; TRUNCATED])) chars = true ->
  exists fmts,
    mapM FormatSpec_of chars = Ok fmts /\ map FormatSpec_value fmts = chars.
Proof.
  induction chars as [|c chars IH]; simpl.
  - intros _. exists []. split; reflexivity.
  - intros H. apply andb_true_iff in H as [Hc Hrest].
    destruct (IH Hrest) as (fmts & Hf & Hv). rewrite Hf.
    apply bool_decide_eq_true in Hc. simpl in Hc.
    apply elem_of_cons in Hc as [-> | Hc];
      [exists (PREFORMATTED :: fmts); simpl; rewrite Hv; split; reflexivity |].
    apply elem_of_cons in Hc as [-> | Hc];
      [exists (WRAPPED :: fmts); simpl; rewrite Hv; split; reflexivity |].
    apply elem_of_cons in Hc as [-> | Hc];
      [exists (TRUNCATED :: fmts); simpl; rewrite Hv; split; reflexivity |].
    inversion Hc.
Qed.

(** X7.  The initializer either returns a table or raises
    [AssertionError]: the assertions have screened the characters of
    [format_str], so [FormatSpec(fmt)] cannot raise.  The table keeps
    the column names and the data; with a non-empty [format_str] the
    values of its format specifiers spell [format_str] again, one
    specifier per column, and without one every column is wrapped. *)
Theorem init_outcome (tc : Z) (names : list string)
    (data : list (list string)) (kw : kwargs) :
  match __init__ tc names data kw with
  | Ok T =>
      _column_names T = names /\ _data T = data
      /\ length (_format_spec T) = length names
      /\ (if truthy_str (format_str kw)
          then Some (string_of_list_ascii (map FormatSpec_value (_format_spec T)))
               = format_str kw
          else _format_spec T = replicate (length names) WRAPPED)
  | Raise e => e = AssertionError
  end.
Proof.
  destruct (__init__ tc names data kw) as [T|e] eqn:Hinit.
  - pose proof (init_constructed _ _ _ _ _ Hinit) as (C & _ & Hn & Hd).
    split; [exact Hn |]. split; [exact Hd |].
    split; [rewrite <- Hn; apply (format_length _ C) |].
    unfold __init__ in Hinit.
    apply bind_Ok in Hinit as (u1 & _ & H). apply bind_Ok in H as (u2 & _ & H).
    apply bind_Ok in H as (u3 & H3 & H). apply assert_Ok in H3.
    apply bind_Ok in H as (u4 & _ & H). apply bind_Ok in H as (u5 & _ & H).
    apply bind_Ok in H as (fmts & Hf & H). injection H as <-. simpl.
    destruct (truthy_str (format_str kw)) eqn:Ht.
    + simpl in H3. destruct (format_specs_of_chars _ H3) as (fmts' & Hf' & Hv).
      rewrite Hf' in Hf. injection Hf as <-. rewrite Hv.
      rewrite string_of_list_ascii_of_string.
      unfold truthy_str in Ht. destruct (format_str kw); [reflexivity | discriminate].
    + injection Hf as <-. reflexivity.
  - unfold __init__ in Hinit. unfold assert_ in Hinit. unfold_result.
    repeat match type of Hinit with
           | context [if ?b then Ok tt else Raise AssertionError] =>
               destruct b eqn:?; [| congruence]
           end.
    destruct (truthy_str (format_str kw)) eqn:Ht; [| discriminate].
    match goal with
    | H : (negb true || forallb _ _) = true |- _ =>
        simpl in H; destruct (format_specs_of_chars _ H) as (fmts & Hf & _)
    end.
    rewrite Hf in Hinit. discriminate.
Qed.

(** ** Preformatted values *)

Lemma append_assoc_str (a b c : string) : (a +:+ b) +:+ c = a +:+ (b +:+ c).
Proof.
  induction a as [|x a IH]; [reflexivity |].
  change (String x ((a +:+ b) +:+ c) = String x (a +:+ (b +:+ c))).
  rewrite IH. reflexivity.
Qed.

Lemma prefix_app (p s : string) :
  String.prefix p s = true -> exists rest, s = p +:+ rest.
Proof.
  revert s. induction p as [|c p IH]; intros s H.
  - exists s. reflexivity.
  - destruct s as [|d s]; [discriminate |]. simpl in H.
    destruct (Ascii.ascii_dec c d) as [->|]; [| discriminate].
    destruct (IH s H) as [rest ->]. exists rest. reflexivity.
Qed.

Lemma split_go_skip (sep suf rest acc : string) :
  Py.split_go sep (String.length suf) acc (suf +:+ rest)
  = Py.split_go sep 0 acc rest.
Proof.
  induction suf as [|c suf IH]; [reflexivity |].
  change (Py.split_go sep (S (String.length suf)) acc (String c (suf +:+ rest))
          = Py.split_go sep 0 acc rest).
  simpl. exact IH.
Qed.

Lemma join_cons (sep x : string) (l : list string) :
  l <> [] -> Py.join sep (x :: l) = x +:+ sep +:+ Py.join sep l.
Proof. destruct l; [contradiction | reflexivity]. Qed.

Lemma join_split_go (sep : string) (n : nat) (s acc : string) :
  sep <> "" ->
  (String.length s <= n)%nat ->
  Py.join sep (Py.split_go sep 0 acc s) = acc +:+ s.
Proof.
  intros Hsep. revert s acc. induction n as [|n IH]; intros s acc Hlen.
  - destruct s; [| simpl in Hlen; lia]. simpl. symmetry. apply append_empty_r.
  - destruct s as [|c s]; [simpl; symmetry; apply append_empty_r |].
    simpl in Hlen. cbn [Py.split_go].
    destruct (String.prefix sep (String c s)) eqn:Hp.
    + destruct sep as [|c0 sep']; [contradiction |].
      pose proof Hp as Hp'. simpl in Hp'.
      destruct (Ascii.ascii_dec c0 c) as [->|]; [| discriminate].
      destruct (prefix_app _ _ Hp') as [rest ->].
      replace (String.length (String c sep') - 1)%nat with (String.length sep')
        by (simpl; lia).
      rewrite split_go_skip, join_cons by apply split_go_nonempty.
      rewrite IH by (rewrite length_app_str in Hlen; lia).
      change (acc +:+ String c sep' +:+ rest = acc +:+ String c (sep' +:+ rest)).
      reflexivity.
    + rewrite IH by lia. rewrite append_assoc_str. reflexivity.
Qed.

(** X8.  Rendering a preformatted value loses nothing: the lines it is
    split into, of which there is at least one, give the value back when
    joined with the preformat separator. *)
Theorem preformatted_round_trip (wrap : string -> Z -> result (list string))
    (self : Table) (val : string) (w : Z) (segs : list string) :
  format_value wrap self val w PREFORMATTED = Ok segs ->
  segs <> [] /\ Py.join (_preformat_sep self) segs = val.
Proof.
  unfold format_value, Py.split.
  destruct (decide (_preformat_sep self = "")) as [|Hsep]; [discriminate |].
  intros [= <-]. split; [apply split_go_nonempty |].
  apply (join_split_go _ (String.length val) val "" Hsep). lia.
Qed.

Lemma preformatted_round_trip_witness :
  ["a"; "bb"; "ccc"] <> [] /\ Py.join ", " ["a"; "bb"; "ccc"] = "a, bb, ccc".
Proof.
  exact (preformatted_round_trip wrap_unused Examples.squeezed "a, bb, ccc" 0
           ["a"; "bb"; "ccc"] eq_refl).
Defined.

(** ** Negative widths *)

Lemma mapM_raises {A B} (f : A -> result B) (l : list A) (E : exn) :
  (forall x e, f x = Raise e -> e = E) ->
  (exists x, x ∈ l /\ f x = Raise E) ->
  mapM f l = Raise E.
Proof.
  intros Honly. induction l as [|x l IH]; intros (y & Hin & Hy).
  - inversion Hin.
  - simpl. unfold_result. destruct (f x) as [b|e] eqn:Hx.
    + apply elem_of_cons in Hin as [-> | Hin]; [congruence |].
      rewrite IH by eauto. reflexivity.
    + f_equal. exact (Honly _ _ Hx).
Qed.

(** X9.  A negative width makes the row unprintable: when the values
    of a row have been formatted into at least one line, and one of the
    columns has a negative width, [lines_for_row] raises [ValueError]
    from the left-justification of the first line. *)
Theorem negative_width_fails (wrap : string -> Z -> result (list string))
    (self : Table) (i : Z) (values : list string) (widths : list Z)
    (cols : list (list string)) (j : nat) (w : Z) :
  mapM (fun t => format_value wrap self t.1 t.2.1 t.2.2)
       (zip values (zip widths (_format_spec self))) = Ok cols ->
  (0 < Py.longest cols)%nat ->
  (j < length cols)%nat ->
  widths !! j = Some w ->
  w < 0 ->
  lines_of wrap self i values widths = Raise ValueError.
Proof.
  intros Hcols Hlong Hj Hw Hneg. unfold lines_of. rewrite Hcols. unfold_result.
  unfold Py.zip_longest. destruct (Py.longest cols) as [|m]; [lia |].
  simpl. unfold_result.
  set (line := map (fun col => nth 0 col "") cols).
  assert (justified widths line = Raise ValueError) as Hjust.
  { unfold justified. apply mapM_raises.
    - intros [v w'] e. unfold Py.format_ljust. simpl.
      destruct (w' <? 0); [congruence | discriminate].
    - assert (is_Some (line !! j)) as [v Hv].
      { apply lookup_lt_is_Some_2. unfold line. rewrite length_map. exact Hj. }
      exists (v, w). split.
      + apply list_elem_of_lookup. exists j. apply lookup_zip_Some. auto.
      + unfold Py.format_ljust. simpl.
        destruct (Z.ltb_spec w 0); [reflexivity | lia]. }
  rewrite Hjust. reflexivity.
Qed.

Lemma negative_width_fails_witness :
  lines_of wrap_unused Examples.too_narrow 0 ["0123456789"; "abc"] [9; -5]
  = Raise ValueError.
Proof.
  apply (negative_width_fails wrap_unused Examples.too_narrow 0
           ["0123456789"; "abc"] [9; -5] [["0123456789"]; ["abc"]] 1 (-5)).
  - reflexivity.
  - vm_compute. lia.
  - vm_compute. lia.
  - reflexivity.
  - lia.
Defined.

Example too_narrow_cannot_be_rendered :
  option_map fst (lines_for_row wrap_unused Examples.too_narrow 0)
  = Some (Raise ValueError).
Proof. reflexivity. Qed.

(** ** The objects shown by [Project 1/lux.py] *)

(** X10.  When the search finds more than a thousand objects, [main]
    shows the slice [[1:1000]] of them: 999 objects, the second to the
    thousandth; the first object found is left out. *)
Theorem main_shows_999 {A} (found : list A) :
  (1000 < length found)%nat ->
  length (main_shown found) = 999%nat
  /\ forall k, (k < 999)%nat -> main_shown found !! k = found !! S k.
Proof.
  intros Hlen. unfold main_shown, py_slice.
  destruct (Nat.ltb_spec 1000 (length found)) as [_|]; [| lia].
  split.
  - rewrite length_take, length_drop. lia.
  - intros k Hk. rewrite lookup_take_lt by lia. rewrite lookup_drop. reflexivity.
Qed.

Lemma main_shows_999_witness :
  length (main_shown (seq 0 1001)) = 999%nat
  /\ forall k, (k < 999)%nat ->
       main_shown (seq 0 1001) !! k = seq 0 1001 !! S k.
Proof.
  apply (main_shows_999 (seq 0 1001)). rewrite length_seq. lia.
Defined.

(** ** The whole table as text *)

Lemma lines_for_row_cached (wrap : string -> Z -> result (list string))
    (self : Table) (ws : list Z) (k : nat) (row : list string) :
  column_widths self = Some (Ok ws, self) ->
  _data self !! k = Some row ->
  lines_for_row wrap self (Z.of_nat k)
  = Some (lines_of wrap self (Z.of_nat k) row ws, self).
Proof.
  intros Hcw Hrow. unfold lines_for_row, values_for_row, is_header.
  destruct (Z.ltb_spec (Z.of_nat k) 0); [lia |].
  rewrite Nat2Z.id, (proj2 (getitem_Ok _ _ _) Hrow), Hcw. reflexivity.
Qed.

Lemma extend_with_rows_S (wrap : string -> Z -> result (list string))
    (fuel : nat) (c : Cursor) (lines : list string) :
  extend_with_rows wrap (S fuel) c lines
  = match __next__ wrap c with
    | None => None
    | Some (StopIteration, c') => Some (Ok lines, c')
    | Some (Throw e, c') => Some (Raise e, c')
    | Some (Yield row, c') => extend_with_rows wrap fuel c' (lines ++ row)
    end.
Proof. reflexivity. Qed.

Lemma extend_with_rows_spec (wrap : string -> Z -> result (list string))
    (self : Table) (ws : list Z) :
  column_widths self = Some (Ok ws, self) ->
  forall (rest : list (list string)) (k : nat) (acc : list string),
    drop k (_data self) = rest ->
    (k <= length (_data self))%nat ->
    option_map (fun p => (p.1, instance p.2))
      (extend_with_rows wrap (S (length rest)) (mkCursor self (Z.of_nat k)) acc)
    = Some (mapM (fun kr => lines_of wrap self (Z.of_nat kr.1) kr.2 ws)
                 (imap (fun i row => ((k + i)%nat, row)) rest)
              ≫= (fun rows => Ok (acc ++ concat rows)),
            self).
Proof.
  intros Hcw rest. induction rest as [|row rest IH]; intros k acc Hdrop Hk.
  - assert (k = length (_data self)) as ->.
    { apply (f_equal length) in Hdrop. rewrite length_drop in Hdrop.
      simpl in Hdrop. lia. }
    simpl. unfold __next__, __len__. simpl. rewrite Z.eqb_refl. simpl.
    rewrite app_nil_r. reflexivity.
  - assert (_data self !! k = Some row) as Hrow.
    { rewrite <- (Nat.add_0_r k), <- lookup_drop, Hdrop. reflexivity. }
    pose proof (lookup_lt_Some _ _ _ Hrow) as Hlt.
    assert (drop (S k) (_data self) = rest) as Hdrop'.
    { rewrite (drop_S _ _ _ Hrow) in Hdrop. injection Hdrop as Hd. exact Hd. }
    change (length (row :: rest)) with (S (length rest)).
    rewrite extend_with_rows_S. unfold __next__ at 1, __len__, __getitem__.
    cbn [instance _iter_cnt].
    destruct (Z.eqb_spec (Z.of_nat k) (Z.of_nat (length (_data self))));
      [lia |].
    rewrite (lines_for_row_cached wrap self ws k row Hcw Hrow).
    rewrite imap_cons. cbn [mapM]. rewrite Nat.add_0_r. cbn [fst snd].
    destruct (lines_of wrap self (Z.of_nat k) row ws) as [lines|e];
      [| reflexivity].
    replace (Z.of_nat k + 1) with (Z.of_nat (S k)) by lia.
    rewrite (IH (S k) (acc ++ lines) Hdrop' ltac:(lia)).
    rewrite (imap_ext (_ ∘ S) (fun i row => ((S k + i)%nat, row)))
      by (intros; simpl; f_equal; lia).
    unfold_result.
    destruct (mapM _ (imap _ rest)) as [rows|]; [| reflexivity].
    simpl. rewrite <- app_assoc. reflexivity.
Qed.

(** X11.  The text of a table is its header lines followed by the lines
    of every data row in order, joined with newlines: once [headers()]
    has returned, [__str__] renders row after row with the cached
    widths, one row per element of the data, and the first row that
    cannot be rendered decides the exception; the loop over the rows
    ends after one call of [__next__] per row and one more. *)
Theorem str_is_headers_then_rows (wrap : string -> Z -> result (list string))
    (self self' : Table) (hl : list string) :
  headers wrap self = Some (Ok hl, self') ->
  __str__ wrap self
  = Some (mapM (fun kr => lines_of wrap self' (Z.of_nat kr.1) kr.2
                            (_column_widths self'))
               (Py.enumerate (_data self'))
            ≫= (fun rows => Ok (Py.join newline (hl ++ concat rows))),
          self').
Proof.
  intros Hh. unfold __str__. rewrite Hh.
  assert (column_widths self'
          = Some (Ok (_column_widths self'), self')) as Hcw.
  { unfold headers, lines_for_row in Hh.
    destruct (values_for_row self (-1)); [| discriminate].
    destruct (column_widths self) as [[[ws|e] self1]|] eqn:Hc; try discriminate.
    injection Hh as _ <-. apply column_widths_cached in Hc as [-> Hc]. exact Hc. }
  pose proof (extend_with_rows_spec wrap self' _ Hcw (_data self') 0 hl
                eq_refl ltac:(lia)) as Hspec.
  change (mkCursor self' (Z.of_nat 0)) with (__iter__ self') in Hspec.
  destruct (extend_with_rows wrap _ (__iter__ self') hl) as [[r c]|];
    [| discriminate].
  simpl in Hspec. injection Hspec as Hr Hc. subst r. rewrite Hc.
  unfold Py.enumerate. unfold_result.
  destruct (mapM _ (imap _ (_data self'))); reflexivity.
Qed.

Lemma str_is_headers_then_rows_witness :
  __str__ wrap_unused Examples.squeezed
  = Some (Ok ("a    abcdefghij" +:+ newline +:+ "               " +:+ newline
              +:+ "hello x         "),
          set_column_widths Examples.squeezed [4; 10]).
Proof.
  exact (str_is_headers_then_rows wrap_unused Examples.squeezed
           (set_column_widths Examples.squeezed [4; 10])
           ["a    abcdefghij"; "               "] eq_refl).
Defined.

Lemma headers_cached (wrap : string -> Z -> result (list string))
    (self self' : Table) (r : result (list string)) :
  headers wrap self = Some (r, self') ->
  (exists lines, r = Ok lines) ->
  column_widths self' = Some (Ok (_column_widths self'), self')
  /\ headers wrap self' = Some (r, self').
Proof.
  intros Hh [hl ->]. unfold headers, lines_for_row in *.
  change (values_for_row self' (-1)) with (Ok (_column_names self')).
  change (values_for_row self (-1)) with (Ok (_column_names self)) in Hh.
  cbv iota in *.
  destruct (column_widths self) as [[[ws|e] self1]|] eqn:Hc; try discriminate.
  injection Hh as Hl <-.
  destruct (column_widths_state _ _ _ Hc) as [ws0 Hs].
  apply column_widths_cached in Hc as [Hw Hc]. subst ws.
  split; [exact Hc |]. rewrite Hc, <- Hl. rewrite Hs. reflexivity.
Qed.

(** X12.  Rendering is repeatable: once [__str__] has returned a text,
    calling it again on the instance returns the same text and leaves
    the instance as it is. *)
Theorem str_twice (wrap : string -> Z -> result (list string))
    (self self' : Table) (s : string) :
  __str__ wrap self = Some (Ok s, self') ->
  __str__ wrap self' = Some (Ok s, self').
Proof.
  intros H. unfold __str__ in H.
  destruct (headers wrap self) as [[[hl|e] self1]|] eqn:Hh; try discriminate.
  destruct (headers_cached wrap self self1 (Ok hl) Hh ltac:(eauto)) as [Hcw Hh1].
  pose proof (extend_with_rows_spec wrap self1 _ Hcw (_data self1) 0 hl
                eq_refl ltac:(lia)) as Hspec.
  change (mkCursor self1 (Z.of_nat 0)) with (__iter__ self1) in Hspec.
  assert (self' = self1) as ->.
  { destruct (extend_with_rows wrap _ (__iter__ self1) hl) as [[r c]|];
      [| discriminate].
    simpl in Hspec. injection Hspec as _ Hc. destruct r; congruence. }
  unfold __str__. rewrite Hh1. exact H.
Qed.

Lemma str_twice_witness :
  __str__ wrap_unused (set_column_widths Examples.squeezed [4; 10])
  = Some (Ok ("a    abcdefghij" +:+ newline +:+ "               " +:+ newline
              +:+ "hello x         "),
          set_column_widths Examples.squeezed [4; 10]).
Proof.
  apply (str_twice wrap_unused Examples.squeezed). reflexivity.
Defined.

(** ** The length of the lines *)

Lemma len_join (sep : string) (l : list string) :
  l <> [] ->
  Py.len (Py.join sep l)
  = Py.sum (map Py.len l) + Py.len sep * (Z.of_nat (length l) - 1).
Proof.
  induction l as [|x l IH]; [contradiction |]. intros _.
  destruct l as [|y l].
  - simpl. lia.
  - rewrite join_cons by discriminate. rewrite !len_app, IH by discriminate.
    simpl length. simpl map. simpl Py.sum. lia.
Qed.

Lemma sum_segments (row : list string) (widths : list Z) :
  Forall2 (fun seg w => w <= Py.len seg) row widths ->
  Py.sum widths <= Py.sum (map Py.len row).
Proof. induction 1; simpl; lia. Qed.

Lemma segments_cover_widths (wrap : string -> Z -> result (list string))
    (self : Table) (i : Z) (values : list string) (widths : list Z)
    (rows : list (list string)) (row : list string) :
  length values = length widths ->
  length (_format_spec self) = length widths ->
  String.length (_head_underline self) = 1%nat ->
  segments_of wrap self i values widths = Ok rows ->
  row ∈ rows ->
  Forall2 (fun seg w => w <= Py.len seg) row widths.
Proof.
  intros Hv Hf Hu H Hin. unfold segments_of in H.
  apply bind_Ok in H as (cols & Hcols & H). apply bind_Ok in H as (rs & Hrs & H).
  assert (length cols = length widths) as Hlc.
  { apply mapM_length in Hcols. rewrite Hcols, !length_zip. lia. }
  assert (row ∈ rs -> Forall2 (fun seg w => w <= Py.len seg) row widths) as Hjust.
  { intros Hr. apply list_elem_of_lookup in Hr as [k Hk].
    apply mapM_Forall2 in Hrs.
    destruct (Forall2_lookup_r _ _ _ _ _ Hrs Hk) as (line & Hline & Hl).
    assert (length line = length widths) as Hll.
    { unfold Py.zip_longest in Hline. rewrite map_fmap in Hline.
      apply list_lookup_fmap_Some in Hline as (k' & -> & _).
      rewrite length_map. exact Hlc. }
    apply Forall2_same_length_lookup_2.
    - unfold justified in Hl. apply mapM_length in Hl.
      rewrite Hl, length_zip. lia.
    - intros j seg w Hseg Hw.
      destruct (justified_lookup _ _ _ _ _ Hl Hseg) as (v & w' & _ & Hw' & Hfmt).
      rewrite Hw in Hw'. injection Hw' as <-.
      apply format_ljust_Ok in Hfmt as (_ & _ & Hlen). lia. }
  destruct (is_header i); injection H as <-; [| auto].
  apply elem_of_app in Hin as [Hr | Hun]; [auto |].
  apply list_elem_of_singleton in Hun as ->.
  apply Forall2_same_length_lookup_2.
  - unfold underlines. apply length_map.
  - intros j seg w Hseg Hw. apply underlines_lookup in Hseg as (w' & Hw' & ->).
    rewrite Hw in Hw'. injection Hw' as <-.
    rewrite len_str_mul. unfold Py.len at 1. rewrite Hu. lia.
Qed.

(** X13.  No line of a rendered row is shorter than the table: on a
    freshly constructed table with at least one column, every line that
    [lines_for_row] returns is at least as long as the total width of
    the resolved widths (the widths and the separators between them). *)
Theorem lines_cover_total_width tc names data kw (T : Table)
    (wrap : string -> Z -> result (list string)) (i : Z)
    (lines : list string) (T' : Table) (line : string) :
  __init__ tc names data kw = Ok T ->
  names <> [] ->
  lines_for_row wrap T i = Some (Ok lines, T') ->
  line ∈ lines ->
  total_width T' (_column_widths T') <= Py.len line.
Proof.
  intros Hinit Hne Hl Hin.
  apply init_constructed in Hinit as (C & Hfresh & <- & _).
  unfold lines_for_row in Hl.
  destruct (values_for_row T i) as [values|] eqn:Hv; [| discriminate].
  destruct (column_widths T) as [[[ws|e] T1]|] eqn:Hcw; try discriminate.
  injection Hl as Hl <-.
  destruct (resolved_fresh T ws T1 C Hfresh Hcw) as (lw & _ & Hloop).
  apply redistribute_loop_length in Hloop. rewrite length_insert in Hloop.
  rewrite (nominal_length T C) in Hloop.
  destruct (column_widths_state _ _ _ Hcw) as [ws0 Hs].
  apply column_widths_cached in Hcw as [Hw _]. rewrite Hw.
  assert (constructed T1) as C1
    by (rewrite Hs; apply constructed_set_column_widths, C).
  assert (length values = length ws) as Hlv.
  { unfold values_for_row in Hv. destruct (is_header i).
    - injection Hv as <-. lia.
    - apply getitem_Ok in Hv.
      rewrite (Forall_lookup_1 _ _ _ _ (rows_length _ C) Hv). lia. }
  rewrite lines_of_segments in Hl. apply bind_Ok in Hl as (rows & Hrows & Hl).
  injection Hl as <-. rewrite map_fmap in Hin.
  apply list_elem_of_fmap in Hin as (row & -> & Hrow).
  assert (Forall2 (fun seg w => w <= Py.len seg) row ws) as Hcover.
  { apply (segments_cover_widths wrap T1 i values ws rows row Hlv);
      [| apply (underline_char _ C1) | exact Hrows | exact Hrow].
    rewrite Hs. simpl. rewrite (format_length _ C). lia. }
  pose proof (Forall2_length _ _ _ Hcover) as Hlr.
  assert (row <> []) as Hrne.
  { intros ->. simpl in Hlr. destruct (_column_names T); [contradiction |].
    simpl in Hloop. lia. }
  rewrite (len_join _ row Hrne), Hlr. unfold total_width.
  pose proof (sum_segments row ws Hcover). lia.
Qed.

Lemma lines_cover_total_width_witness :
  total_width (set_column_widths Examples.squeezed [4; 10]) [4; 10]
  <= Py.len "hello x         ".
Proof.
  apply (lines_cover_total_width 100 ["a"; "abcdefghij"] [["hello"; "x"]]
           (Examples.kw (Some "pp") None (Some 15)) Examples.squeezed
           wrap_unused 0 ["hello x         "]
           (set_column_widths Examples.squeezed [4; 10])
           "hello x         " eq_refl).
  - discriminate.
  - reflexivity.
  - apply list_elem_of_here.
Defined.

(** X14.  The underline is as long as the table: for widths none of
    which is negative, of a table with at least one column, the last
    header line has exactly the total width of the widths. *)
Theorem underline_length tc names data kw (T : Table) (ws : list Z) :
  __init__ tc names data kw = Ok T ->
  ws <> [] ->
  Forall (fun w => 0 <= w) ws ->
  Py.len (Py.join (_col_sep T) (underlines T ws)) = total_width T ws.
Proof.
  intros Hinit Hne Hall. apply init_constructed in Hinit as (C & _).
  assert (underlines T ws <> []) as Hune
    by (destruct ws; [contradiction | discriminate]).
  rewrite (len_join _ _ Hune). unfold total_width, underlines.
  rewrite length_map. f_equal.
  clear Hne Hune. induction Hall as [|w ws Hw _ IH]; [reflexivity |].
  simpl. rewrite IH, len_str_mul. unfold Py.len at 1.
  rewrite (underline_char _ C). lia.
Qed.

Lemma underline_length_witness :
  Py.len (Py.join " " (underlines Examples.people [2; 9])) = 12.
Proof.
  apply (underline_length 100 ["ID"; "Name"]
           [["1"; "Ann"]; ["2"; "Alexandra"]] no_kwargs Examples.people
           [2; 9] eq_refl).
  - discriminate.
  - repeat constructor; lia.
Defined.

(** ** Which column the loop reduces *)

Lemma insert_desc_sorted (t : nat * Z) (l : list (nat * Z)) :
  StronglySorted visited_before l ->
  Forall (fun u => (t.1 < u.1)%nat) l ->
  StronglySorted visited_before (Py.insert_desc t l).
Proof.
  induction 1 as [|u l Hl IH Hu]; intros Hidx; simpl.
  - repeat constructor.
  - inversion Hidx as [|? ? Htu Hrest]; subst.
    destruct (Z.leb_spec u.2 t.2) as [Hle|Hgt].
    + constructor; [constructor; assumption |].
      constructor.
      * unfold visited_before. lia.
      * apply Forall_forall. intros v Hv.
        pose proof (proj1 (Forall_forall _ _) Hu v Hv) as Huv.
        pose proof (proj1 (Forall_forall _ _) Hrest v Hv) as Htv.
        unfold visited_before in *. lia.
    + constructor; [apply IH, Hrest |].
      rewrite insert_desc_perm. constructor; [| exact Hu].
      unfold visited_before. lia.
Qed.

Lemma sorted_desc_sorted (l : list (nat * Z)) :
  StronglySorted (fun a b => (a.1 < b.1)%nat) l ->
  StronglySorted visited_before (Py.sorted_desc l).
Proof.
  induction 1 as [|t l Hl IH Ht]; simpl; [constructor |].
  apply insert_desc_sorted; [exact IH |]. rewrite sorted_desc_perm. exact Ht.
Qed.

Lemma enumerate_increasing {A} (f : nat -> nat) (l : list A) :
  (forall a b, (a < b)%nat -> (f a < f b)%nat) ->
  StronglySorted (fun a b : nat * A => (a.1 < b.1)%nat)
    (imap (fun i x => (f i, x)) l).
Proof.
  revert f. induction l as [|x l IH]; intros f Hf; [constructor |].
  rewrite imap_cons. constructor.
  - apply (IH (f ∘ S)). intros a b Hab. simpl. apply Hf. lia.
  - apply Forall_forall. intros [j y] Hin.
    apply elem_of_lookup_imap in Hin as (k & z & [= -> ->] & _).
    simpl. apply Hf. lia.
Qed.

Lemma sweep_first (self : Table) (l : list (nat * Z)) (z : Z) :
  StronglySorted visited_before l ->
  sweep self l = Ok z ->
  0 <= z ->
  exists i w,
    z = Z.of_nat i /\ (i, w) ∈ l /\ wide_at self i w = Ok true
    /\ forall u, u ∈ l -> wide_at self u.1 u.2 = Ok true ->
                 u = (i, w) \/ visited_before (i, w) u.
Proof.
  induction 1 as [|[i w] l Hl IH Hfirst]; [simpl; intros [= <-]; lia |].
  rewrite sweep_cons. destruct (wide_at self i w) as [[|]|] eqn:Hw.
  - intros [= <-] _. exists i, w.
    split; [reflexivity |]. split; [apply list_elem_of_here |].
    split; [exact Hw |]. intros u Hu _.
    apply elem_of_cons in Hu as [-> | Hu]; [left; reflexivity | right].
    exact (proj1 (Forall_forall _ _) Hfirst u Hu).
  - intros Hs Hz. destruct (IH Hs Hz) as (i' & w' & -> & Hin & Hw' & Hmin).
    exists i', w'. split; [reflexivity |].
    split; [apply list_elem_of_further, Hin |]. split; [exact Hw' |].
    intros u Hu Hwu. apply elem_of_cons in Hu as [-> | Hu].
    + simpl in Hwu. congruence.
    + exact (Hmin u Hu Hwu).
  - discriminate.
Qed.

(** X15.  The column that [next_reducable_column_idx] returns is the
    widest of the columns that pass [column_is_wide_enough], and the one
    with the lowest index among the widest: every other column that
    passes the check is narrower, or as wide and further to the right. *)
Theorem next_reducable_is_widest (self : Table) (widths : list Z) (z : Z) :
  next_reducable_column_idx self widths = Ok z ->
  0 <= z ->
  exists i w,
    z = Z.of_nat i /\ widths !! i = Some w /\ wide_at self i w = Ok true
    /\ forall j w',
         widths !! j = Some w' ->
         wide_at self j w' = Ok true ->
         w' < w \/ (w' = w /\ (i <= j)%nat).
Proof.
  intros Hnext Hz. unfold next_reducable_column_idx in Hnext.
  destruct (sweep_first self _ z
              (sorted_desc_sorted _ (enumerate_increasing id widths
                                       ltac:(auto))) Hnext Hz)
    as (i & w & -> & Hin & Hw & Hmin).
  exists i, w. split; [reflexivity |].
  split; [apply elem_of_sorted, Hin |]. split; [exact Hw |].
  intros j w' Hj Hwj. apply elem_of_sorted in Hj.
  destruct (Hmin (j, w') Hj Hwj) as [[= -> ->] | Hb].
  - right. split; [reflexivity | lia].
  - unfold visited_before in Hb. simpl in Hb. lia.
Qed.

Lemma next_reducable_is_widest_witness :
  exists i w,
    1 = Z.of_nat i /\ [3; 5; 3; 5] !! i = Some w
    /\ wide_at (set_column_widths
                  (Examples.table ["a"; "b"; "c"; "d"] [] 
                     [WRAPPED; WRAPPED; WRAPPED; WRAPPED] " " 100)
                  [3; 5; 3; 5]) i w = Ok true
    /\ forall j w',
         [3; 5; 3; 5] !! j = Some w' ->
         wide_at (set_column_widths
                    (Examples.table ["a"; "b"; "c"; "d"] []
                       [WRAPPED; WRAPPED; WRAPPED; WRAPPED] " " 100)
                    [3; 5; 3; 5]) j w' = Ok true ->
         w' < w \/ (w' = w /\ (i <= j)%nat).
Proof.
  apply (next_reducable_is_widest
           (set_column_widths
              (Examples.table ["a"; "b"; "c"; "d"] []
                 [WRAPPED; WRAPPED; WRAPPED; WRAPPED] " " 100)
              [3; 5; 3; 5]) [3; 5; 3; 5] 1).
  - reflexivity.
  - lia.
Defined.

(** ** Empty tables *)

(** X16.  A table without columns has no widths: every read of
    [column_widths] raises [IndexError] at the look-up of the last
    width and leaves the instance as it was, so nothing is ever cached,
    and [__str__] raises [IndexError] as well. *)
Theorem no_columns_no_widths tc data kw (T : Table)
    (wrap : string -> Z -> result (list string)) :
  __init__ tc [] data kw = Ok T ->
  column_widths T = Some (Raise IndexError, T)
  /\ headers wrap T = Some (Raise IndexError, T)
  /\ __str__ wrap T = Some (Raise IndexError, T).
Proof.
  intros Hinit. apply init_constructed in Hinit as (_ & Hfresh & Hn & _).
  assert (column_widths T = Some (Raise IndexError, T)) as Hcw.
  { unfold column_widths. rewrite Hfresh, Hn. simpl.
    rewrite zip_with_nil_r. simpl.
    unfold _redistribute_widths. rewrite Hfresh. reflexivity. }
  assert (headers wrap T = Some (Raise IndexError, T)) as Hh.
  { unfold headers, lines_for_row.
    change (values_for_row T (-1)) with (Ok (_column_names T)).
    cbv iota. rewrite Hcw. reflexivity. }
  split; [exact Hcw |]. split; [exact Hh |].
  unfold __str__. rewrite Hh. reflexivity.
Qed.

Lemma no_columns_no_widths_witness :
  column_widths (Examples.table [] [] [] " " 100)
  = Some (Raise IndexError, Examples.table [] [] [] " " 100)
  /\ __str__ wrap_unused (Examples.table [] [] [] " " 100)
     = Some (Raise IndexError, Examples.table [] [] [] " " 100).
Proof.
  destruct (no_columns_no_widths 100 [] no_kwargs
              (Examples.table [] [] [] " " 100) wrap_unused eq_refl)
    as (H1 & _ & H3).
  split; assumption.
Defined.

(** X17.  A table without data rows is sized by its headers and prints
    as its header lines alone: the nominal width of a column that is not
    preformatted is the length of its header, and the text of the table
    is the header lines joined with newlines. *)
Theorem no_rows_only_headers tc names kw (T : Table) :
  __init__ tc names [] kw = Ok T ->
  (forall j h f,
      names !! j = Some h ->
      _format_spec T !! j = Some f ->
      f <> PREFORMATTED ->
      nominal_widths T !! j = Some (Py.len h))
  /\ (forall wrap hl T',
        headers wrap T = Some (Ok hl, T') ->
        __str__ wrap T = Some (Ok (Py.join newline hl), T')).
Proof.
  intros Hinit. apply init_constructed in Hinit as (C & Hfresh & <- & Hd).
  split.
  - intros j h f Hh Hf Hne.
    destruct (nominal_lookup T j h f C Hh Hf) as (w & Hw & Hp).
    rewrite Hd in Hp. unfold preliminary_width in Hp.
    destruct (decide (f = PREFORMATTED)); [contradiction |].
    simpl in Hp. injection Hp as <-. exact Hw.
  - intros wrap hl T' Hh.
    destruct (headers_cached wrap T T' (Ok hl) Hh ltac:(eauto)) as [Hcw _].
    destruct (column_widths_state T T' (Ok (_column_widths T'))) as [ws Hs].
    { unfold headers, lines_for_row in Hh.
      change (values_for_row T (-1)) with (Ok (_column_names T)) in Hh.
      cbv iota in Hh.
      destruct (column_widths T) as [[[ws|e] T1]|] eqn:Hc; try discriminate.
      injection Hh as _ <-. apply column_widths_cached in Hc as Hc'.
      destruct Hc' as [-> _]. reflexivity. }
    assert (_data T' = []) as Hd' by (rewrite Hs; exact Hd).
    unfold __str__. rewrite Hh, Hd'.
    pose proof (extend_with_rows_spec wrap T' _ Hcw [] 0 hl) as Hspec.
    rewrite Hd' in Hspec. specialize (Hspec eq_refl ltac:(simpl; lia)).
    change (mkCursor T' (Z.of_nat 0)) with (__iter__ T') in Hspec.
    simpl length in *.
    destruct (extend_with_rows wrap 1 (__iter__ T') hl) as [[r c]|];
      [| discriminate].
    simpl in Hspec. injection Hspec as -> ->. rewrite app_nil_r. reflexivity.
Qed.

Lemma no_rows_only_headers_witness :
  nominal_widths (Examples.table ["ID"; "Name"] [] [WRAPPED; WRAPPED] " " 100)
    !! 1%nat = Some 4.
Proof.
  apply (proj1 (no_rows_only_headers 100 ["ID"; "Name"] no_kwargs
                  (Examples.table ["ID"; "Name"] [] [WRAPPED; WRAPPED] " " 100)
                  eq_refl) 1%nat "Name" WRAPPED eq_refl eq_refl).
  discriminate.
Defined.

(** ** Indexing with a negative index and out of bounds *)

Lemma mapM_Raise {A B} (f : A -> result B) (l : list A) (e : exn) :
  mapM f l = Raise e -> exists x, x ∈ l /\ f x = Raise e.
Proof.
  induction l as [|x l IH]; simpl; [discriminate |].
  unfold_result. destruct (f x) as [y|e'] eqn:Hx.
  - destruct (mapM f l) as [ys|e'']; [discriminate |].
    intros [= <-]. destruct (IH eq_refl) as (x' & Hin & Hx').
    exists x'. split; [apply list_elem_of_further, Hin | exact Hx'].
  - intros [= <-]. exists x. split; [apply list_elem_of_here | exact Hx].
Qed.

Lemma wide_at_Raise_TypeError (self : Table) (widths : list Z) (i : nat)
    (w : Z) (e : exn) :
  synced self widths ->
  (i < length widths)%nat ->
  wide_at self i w = Raise e ->
  e = TypeError.
Proof.
  intros Hs Hlt H.
  destruct (wide_at_no_IndexError self widths i w Hs Hlt) as [H' | [b H']];
    rewrite H' in H; congruence.
Qed.

Lemma loop_test_Raise_TypeError (self : Table) (widths : list Z) (e : exn) :
  synced self widths ->
  widths <> [] ->
  loop_test self widths = Raise e ->
  e = TypeError.
Proof.
  intros Hs Hne Ht. rewrite (loop_test_synced _ _ Hs) in Ht.
  unfold next_reducable_column_idx in Ht.
  destruct (sweep self _) as [z|e'] eqn:Hsweep.
  - unfold_result. destruct (0 <=? z); [| discriminate].
    assert (is_Some (widths !! pred (length widths))) as [l Hl].
    { apply lookup_lt_is_Some_2. destruct widths; [contradiction | simpl; lia]. }
    rewrite (proj2 (getitem_last_Ok _ _) Hl) in Ht.
    destruct (wide_at self (pred (length widths)) l) as [b|e''] eqn:Hw;
      [discriminate |].
    injection Ht as <-.
    apply (wide_at_Raise_TypeError self widths (pred (length widths)) l e'' Hs);
      [| exact Hw].
    apply lookup_lt_Some in Hl. exact Hl.
  - injection Ht as <-.
    apply sweep_Raise in Hsweep as (i & w & Hin & Hw).
    apply elem_of_sorted, lookup_lt_Some in Hin.
    exact (wide_at_Raise_TypeError self widths i w e' Hs Hin Hw).
Qed.

Lemma redistribute_loop_Raise_TypeError (self : Table) (fuel : nat)
    (widths : list Z) (e : exn) :
  synced self widths ->
  widths <> [] ->
  redistribute_loop fuel self widths = Some (Raise e) ->
  e = TypeError.
Proof.
  revert widths. induction fuel as [|fuel IH]; intros widths Hs Hne H;
    [discriminate |].
  simpl in H. destruct (loop_test self widths) as [[z [|]]|e'] eqn:Ht.
  - destruct (loop_step _ _ _ Hs Ht)
      as (i & w & l & -> & Hlt & Hi & Hw & Hl & _ & Hbody).
    rewrite Hbody in H. eapply IH; [| | exact H].
    + apply synced_insert, synced_insert, Hs.
    + intros Hnil. apply (f_equal length) in Hnil.
      rewrite !length_insert in Hnil.
      destruct widths; [contradiction | discriminate].
  - discriminate.
  - injection H as <-. exact (loop_test_Raise_TypeError self widths e' Hs Hne Ht).
Qed.

(** On a table with at least one column the property [column_widths]
    returns or raises, and what it raises is not [IndexError]. *)
Lemma column_widths_returns (self : Table) :
  constructed self ->
  _column_names self <> [] ->
  exists r self',
    column_widths self = Some (r, self') /\ r <> Raise IndexError.
Proof.
  intros C Hne. destruct (_column_widths self) as [|w ws] eqn:Hcw.
  - rewrite (column_widths_fresh self C Hcw). unfold _redistribute_widths.
    pose proof (nominal_length self C) as Hlen.
    assert (nominal_widths self <> []) as Hnom.
    { intros Hnil. rewrite Hnil in Hlen.
      destruct (_column_names self); [contradiction | discriminate]. }
    assert (is_Some (nominal_widths self
                       !! pred (length (nominal_widths self)))) as [lw Hlw].
    { apply lookup_lt_is_Some_2.
      destruct (nominal_widths self); [contradiction | simpl; lia]. }
    apply getitem_last_Ok in Hlw.
    destruct (Py.getitem_last _) as [lw'|e] eqn:Hg;
      [| simpl in Hg; congruence].
    match goal with
    | |- context [redistribute_loop (loop_fuel ?s ?ws) ?s ?ws] =>
        assert (synced s ws) as Hs;
        [| assert (ws <> []) as Hws;
           [| destruct (redistribute_loop_enough s ws Hs) as [r Hr];
              specialize (Hr _ (Nat.le_refl _)) ] ]
    end.
    + apply synced_nominal; [exact C |]. rewrite length_insert. exact Hlen.
    + intros Hnil. apply (f_equal length) in Hnil.
      rewrite length_insert in Hnil.
      destruct (nominal_widths self); [contradiction | discriminate].
    + rewrite Hr. destruct r as [widths|e].
      * eexists _, _. split; [reflexivity | discriminate].
      * eexists _, _. split; [reflexivity |].
        apply redistribute_loop_Raise_TypeError in Hr; [| exact Hs | exact Hws].
        rewrite Hr. discriminate.
  - unfold column_widths. rewrite Hcw.
    eexists _, _. split; [reflexivity | discriminate].
Qed.

(** The renderer raises [IndexError] only if [textwrap.wrap] does. *)
Lemma lines_of_no_IndexError (wrap : string -> Z -> result (list string))
    (self : Table) (i : Z) (values : list string) (widths : list Z) :
  (forall text w, wrap text w <> Raise IndexError) ->
  lines_of wrap self i values widths <> Raise IndexError.
Proof.
  intros Hwrap. unfold lines_of. unfold_result.
  destruct (mapM _ (zip values _)) as [cols|e] eqn:Hcols.
  - destruct (mapM _ (Py.zip_longest "" cols)) as [body|e] eqn:Hbody.
    + destruct (is_header i); discriminate.
    + intros [= ->]. apply mapM_Raise in Hbody as (line & _ & Hline).
      destruct (justified widths line) as [segs|e] eqn:Hj; [discriminate |].
      injection Hline as ->. unfold justified in Hj.
      apply mapM_Raise in Hj as ([v w] & _ & Hf). unfold Py.format_ljust in Hf.
      simpl in Hf. destruct (w <? 0); discriminate.
  - intros [= ->]. apply mapM_Raise in Hcols as ([v [w f]] & _ & Hf).
    simpl in Hf. destruct f; simpl in Hf.
    + unfold Py.split in Hf. case_decide; discriminate.
    + exact (Hwrap _ _ Hf).
    + destruct (w <? Py.len v); discriminate.
Qed.

(** C10, as amended.  On a table with at least one column, indexing
    returns for every index, [textwrap.wrap] being taken not to raise
    [IndexError].  For a negative index the result, and the state of the
    instance after the call, are those of [headers()]; when the call
    succeeds, the lines returned are the rendering of the column names:
    the names formatted and justified like the values of a row, joined
    with the column separator, followed by the underline as the last
    line.  The call raises [IndexError] exactly for an index that is at
    least the number of rows, and then the instance is left as it
    was. *)
Theorem negative_index_is_header tc names data kw (T0 : Table)
    (ws0 : list Z) (wrap : string -> Z -> result (list string)) (i : Z) :
  __init__ tc names data kw = Ok T0 ->
  names <> [] ->
  (forall text w, wrap text w <> Raise IndexError) ->
  (exists r T', __getitem__ wrap (set_column_widths T0 ws0) i = Some (r, T'))
  /\ (i < 0 ->
      __getitem__ wrap (set_column_widths T0 ws0) i
      = headers wrap (set_column_widths T0 ws0)
      /\ forall lines T',
           __getitem__ wrap (set_column_widths T0 ws0) i
           = Some (Ok lines, T') ->
           exists cols body,
             formatted_columns wrap T' names (_column_widths T') = Ok cols
             /\ mapM (justified (_column_widths T')) (Py.zip_longest "" cols)
                = Ok body
             /\ lines
                = map (Py.join (_col_sep T')) body
                  ++ [Py.join (_col_sep T')
                        (underlines T' (_column_widths T'))])
  /\ (forall T',
        __getitem__ wrap (set_column_widths T0 ws0) i
        = Some (Raise IndexError, T')
        <-> __len__ (set_column_widths T0 ws0) <= i
            /\ T' = set_column_widths T0 ws0).
Proof.
  intros Hinit Hne Hwrap. apply init_constructed in Hinit as (C & _ & Hn & _).
  apply (constructed_set_column_widths _ ws0) in C.
  set (self := set_column_widths T0 ws0) in *.
  assert (_column_names self = names) as Hnames by exact Hn.
  assert (_column_names self <> []) as Hne' by (rewrite Hnames; exact Hne).
  destruct (column_widths_returns self C Hne') as (r & self1 & Hcw & Hr).
  pose proof (values_for_row_bounds self i) as (Hneg & Hbound & Honly).
  split; [| split].
  - unfold __getitem__, lines_for_row.
    destruct (values_for_row self i) as [values|e]; [| eauto].
    rewrite Hcw. destruct r; eauto.
  - intros Hi. split.
    + unfold headers, __getitem__, lines_for_row, values_for_row, lines_of,
        is_header.
      destruct (Z.ltb_spec i 0) as [_|]; [reflexivity | lia].
    + intros lines T'. unfold __getitem__, lines_for_row.
      rewrite (Hneg Hi), Hcw, Hnames. destruct r as [widths|e]; [| discriminate].
      intros [= Hl <-]. apply column_widths_cached in Hcw as [-> _].
      rewrite lines_of_segments in Hl. apply bind_Ok in Hl as (rows & Hrows & Hl).
      unfold segments_of in Hrows.
      apply bind_Ok in Hrows as (cols & Hcols & Hrows).
      apply bind_Ok in Hrows as (body & Hbody & Hrows).
      unfold is_header in Hrows.
      destruct (Z.ltb_spec i 0) as [_|]; [| lia].
      injection Hrows as <-. injection Hl as <-.
      exists cols, body. split; [exact Hcols |]. split; [exact Hbody |].
      rewrite map_app. reflexivity.
  - intros T'. unfold __getitem__, lines_for_row.
    destruct (values_for_row self i) as [values|e] eqn:Hv.
    + assert (~ __len__ self <= i) as Hlt
        by (intros Hle; apply Hbound in Hle; discriminate).
      rewrite Hcw. destruct r as [widths|e].
      * split; [| intros [Hle _]; contradiction].
        intros [= Hl _]. exfalso.
        exact (lines_of_no_IndexError wrap _ _ _ _ Hwrap Hl).
      * split; [| intros [Hle _]; contradiction].
        intros [= -> _]. contradiction.
    + pose proof (Honly _ eq_refl) as ->. split.
      * intros [= <-]. split; [apply Hbound; reflexivity | reflexivity].
      * intros [_ ->]. reflexivity.
Qed.

Lemma negative_index_is_header_witness :
  __getitem__ wrap_unused Examples.squeezed (-3)
  = headers wrap_unused Examples.squeezed
  /\ (exists cols body,
        formatted_columns wrap_unused
          (set_column_widths Examples.squeezed [4; 10])
          ["a"; "abcdefghij"] [4; 10]
        = Ok cols
        /\ mapM (justified [4; 10]) (Py.zip_longest "" cols) = Ok body
        /\ ["a    abcdefghij"; "               "]
           = map (Py.join " ") body
             ++ [Py.join " "
                   (underlines (set_column_widths Examples.squeezed [4; 10])
                      [4; 10])])
  /\ __getitem__ wrap_unused Examples.squeezed 1
     = Some (Raise IndexError, Examples.squeezed).
Proof.
  assert (forall text w, wrap_unused text w <> Raise IndexError) as Hwrap
    by (intros text w; discriminate).
  assert (["a"; "abcdefghij"] <> @nil string) as Hne by discriminate.
  pose proof (negative_index_is_header 100 ["a"; "abcdefghij"]
                [["hello"; "x"]] (Examples.kw (Some "pp") None (Some 15))
                Examples.squeezed [] wrap_unused (-3) eq_refl Hne Hwrap)
    as (_ & Hneg & _).
  destruct Hneg as [Hhead Hlines]; [reflexivity |].
  split; [exact Hhead |]. split.
  - exact (Hlines ["a    abcdefghij"; "               "]
             (set_column_widths Examples.squeezed [4; 10]) eq_refl).
  - apply (negative_index_is_header 100 ["a"; "abcdefghij"] [["hello"; "x"]]
             (Examples.kw (Some "pp") None (Some 15)) Examples.squeezed []
             wrap_unused 1 eq_refl Hne Hwrap).
    split; [unfold __len__; simpl; lia | reflexivity].
Defined.

(** C10 as stated fails on a table without columns.  The computation of
    the widths then reads the last element of an empty list, so
    [Table([], [])[-1]] raises [IndexError] although the index is
    negative, and [Table([], [[]])[0]] raises [IndexError] although the
    index is below the number of rows, which is one. *)
Lemma negative_index_is_header_counterexample :
  __init__ 100 [] [] no_kwargs = Ok Examples.no_columns
  /\ __getitem__ wrap_unused Examples.no_columns (-1)
     = Some (Raise IndexError, Examples.no_columns)
  /\ __init__ 100 [] [[]] no_kwargs = Ok Examples.no_columns_one_row
  /\ __len__ Examples.no_columns_one_row = 1
  /\ __getitem__ wrap_unused Examples.no_columns_one_row 0
     = Some (Raise IndexError, Examples.no_columns_one_row).
Proof. repeat split; reflexivity. Qed.
